(** * Inventory ledger of [inventory_gui.py]: Item and InventoryManager

    A shallow embedding of the classes [Item] and [InventoryManager] of
    [inventory_gui.py].  The Python dict [self.items] keeps insertion order,
    so it is an association list: assignment to a present key replaces the
    entry in place, assignment to an absent key appends, [del] removes it.
    The set [self.categories] is a list read up to membership.  The
    [action_stack] is a list whose head is the top of the Python list
    (the most recently appended record). *)

From Stdlib Require Import List ZArith String Ascii Bool Sorted Permutation Lia QArith.
From Stdlib Require OrdersEx.
Import ListNotations.
Open Scope Z_scope.

(** ** Dates *)

(** A [datetime.date]: year, month and day. *)
Record Date := mkDate { year : Z; month : Z; day : Z }.

(** Python compares dates chronologically, i.e. lexicographically on
    (year, month, day). *)
Definition date_ltb (a b : Date) : bool :=
  (year a <? year b)
  || ((year a =? year b)
      && ((month a <? month b) || ((month a =? month b) && (day a <? day b)))).

Definition date_leb (a b : Date) : bool := negb (date_ltb b a).

Definition is_leap (y : Z) : bool :=
  (y mod 4 =? 0) && (negb (y mod 100 =? 0) || (y mod 400 =? 0)).

Definition days_in_month (y m : Z) : Z :=
  match m with
  | 1 => 31 | 2 => if is_leap y then 29 else 28 | 3 => 31 | 4 => 30
  | 5 => 31 | 6 => 30 | 7 => 31 | 8 => 31 | 9 => 30 | 10 => 31
  | 11 => 30 | 12 => 31 | _ => 0
  end.

(** The check of the [datetime.date] constructor ([MINYEAR] = 1,
    [MAXYEAR] = 9999). *)
Definition date_valid (d : Date) : bool :=
  (1 <=? year d) && (year d <=? 9999) && (1 <=? month d) && (month d <=? 12)
  && (1 <=? day d) && (day d <=? days_in_month (year d) (month d)).

(** *** [datetime.datetime.strptime(text, "%Y-%m-%d").date()]

    The format compiles to the regular expression
    [(?P<Y>\d\d\d\d)-(?P<m>1[0-2]|0[1-9]|[1-9])-(?P<d>3[01]|[12]\d|0[1-9]|[1-9]| [1-9])],
    matched at the start of the text; unconverted data left after the match,
    or a day outside the month, raises [ValueError] ([None] here).  The
    alternatives are tried in order; for [%m] a later alternative never
    rescues a failed ['-'] (it would need ['-'] at a digit), and [%d] ends
    the pattern, so first-match is the regex semantics here.  Strings are
    ASCII. *)

Definition digit_of (c : ascii) : option Z :=
  let n := nat_of_ascii c in
  if (48 <=? n)%nat && (n <=? 57)%nat then Some (Z.of_nat n - 48) else None.

Definition lit (ch : ascii) (s : string) : option string :=
  match s with
  | String a rest => if Ascii.eqb a ch then Some rest else None
  | EmptyString => None
  end.

(** One character of the class [[lo-hi]]. *)
Definition dig (lo hi : Z) (s : string) : option (Z * string) :=
  match s with
  | String a rest =>
      match digit_of a with
      | Some x => if (lo <=? x) && (x <=? hi) then Some (x, rest) else None
      | None => None
      end
  | EmptyString => None
  end.

Definition orelse {A} (o1 o2 : option A) : option A :=
  match o1 with Some _ => o1 | None => o2 end.

Definition obind {A B} (o : option A) (f : A -> option B) : option B :=
  match o with Some a => f a | None => None end.

(** [\d\d\d\d] *)
Definition match_Y (s : string) : option (Z * string) :=
  obind (dig 0 9 s) (fun '(a, s1) =>
  obind (dig 0 9 s1) (fun '(b, s2) =>
  obind (dig 0 9 s2) (fun '(c, s3) =>
  obind (dig 0 9 s3) (fun '(d, s4) =>
  Some (a * 1000 + b * 100 + c * 10 + d, s4))))).

(** [1[0-2]|0[1-9]|[1-9]] *)
Definition match_m (s : string) : option (Z * string) :=
  orelse (obind (lit "1" s) (fun s1 =>
            obind (dig 0 2 s1) (fun '(x, s2) => Some (10 + x, s2))))
 (orelse (obind (lit "0" s) (fun s1 => dig 1 9 s1))
         (dig 1 9 s)).

(** [3[01]|[12]\d|0[1-9]|[1-9]| [1-9]] *)
Definition match_d (s : string) : option (Z * string) :=
  orelse (obind (lit "3" s) (fun s1 =>
            obind (dig 0 1 s1) (fun '(x, s2) => Some (30 + x, s2))))
 (orelse (obind (dig 1 2 s) (fun '(a, s1) =>
            obind (dig 0 9 s1) (fun '(b, s2) => Some (a * 10 + b, s2))))
 (orelse (obind (lit "0" s) (fun s1 => dig 1 9 s1))
 (orelse (dig 1 9 s)
         (obind (lit " " s) (fun s1 => dig 1 9 s1))))).

Definition strptime_date (s : string) : option Date :=
  obind (match_Y s) (fun '(y, s1) =>
  obind (lit "-" s1) (fun s2 =>
  obind (match_m s2) (fun '(m, s3) =>
  obind (lit "-" s3) (fun s4 =>
  obind (match_d s4) (fun '(d, s5) =>
  match s5 with
  | EmptyString =>
      let dt := mkDate y m d in if date_valid dt then Some dt else None
  | String _ _ => None
  end))))).

(** [str(date)]: ["%04d-%02d-%02d"]. *)
Definition digit_char (k : Z) : ascii := ascii_of_nat (48 + Z.to_nat k).

Definition date_str (d : Date) : string :=
  String (digit_char (year d / 1000 mod 10))
  (String (digit_char (year d / 100 mod 10))
  (String (digit_char (year d / 10 mod 10))
  (String (digit_char (year d mod 10))
  (String "-"
  (String (digit_char (month d / 10 mod 10))
  (String (digit_char (month d mod 10))
  (String "-"
  (String (digit_char (day d / 10 mod 10))
  (String (digit_char (day d mod 10)) EmptyString))))))))).

(** ** [class Item] *)

Definition Batch : Type := (Date * Z)%type.

Record Item := mkItem {
  name : string;
  category : string;
  price : Q;
  quantity : Z;
  expiry_queue : list Batch;
  date_added : Date
}.

(** [Item(name, category, price)] at the clock reading [today]. *)
Definition new_Item (today : Date) (n c : string) (p : Q) : Item :=
  mkItem n c p 0 [] today.

(** [sorted(..., key=lambda x: x[0])]: a stable sort on the expiry date,
    as insertion sort (an element goes before every later one of the same
    key). *)
Fixpoint insert_by_expiry (b : Batch) (l : list Batch) : list Batch :=
  match l with
  | [] => [b]
  | c :: l' => if date_ltb (fst c) (fst b) then c :: insert_by_expiry b l' else b :: l
  end.

Fixpoint sort_by_expiry (l : list Batch) : list Batch :=
  match l with
  | [] => []
  | b :: l' => insert_by_expiry b (sort_by_expiry l')
  end.

(** [Item.add_stock]. *)
Definition add_stock (it : Item) (qty : Z) (e : Date) : Item :=
  mkItem (name it) (category it) (price it) (quantity it + qty)
         (sort_by_expiry (expiry_queue it ++ [(e, qty)])) (date_added it).

(** The [while] loop of [Item.remove_expired]: returns the final
    [self.quantity], [removed] and the remaining queue. *)
Fixpoint remove_expired_loop (today : Date) (q : list Batch) (qn removed : Z)
  : Z * Z * list Batch :=
  match q with
  | (e, qty) :: q' =>
      if date_ltb e today
      then remove_expired_loop today q' (qn - qty) (removed + qty)
      else (qn, removed, q)
  | [] => (qn, removed, [])
  end.

(** [Item.remove_expired] with [datetime.date.today()] read as [today]. *)
Definition Item_remove_expired (today : Date) (it : Item) : Z * Item :=
  let '(qn, removed, q) := remove_expired_loop today (expiry_queue it) (quantity it) 0 in
  (removed, mkItem (name it) (category it) (price it) qn q (date_added it)).

(** ** [class InventoryManager] *)

(** The records pushed on [self.action_stack]: [('delete_item', name)] and
    [('update_quantity', name, -quantity)]. *)
Inductive action :=
| ActDeleteItem (n : string)
| ActUpdateQuantity (n : string) (delta : Z).

Record Manager := mkManager {
  items : list (string * Item);
  action_stack : list action;
  categories : list string
}.

Definition empty_manager : Manager := mkManager [] [] [].

(** *** The dict [self.items] *)

Fixpoint dict_get (k : string) (d : list (string * Item)) : option Item :=
  match d with
  | [] => None
  | (k', v) :: d' => if String.eqb k k' then Some v else dict_get k d'
  end.

(** [d[k] = v]: in place when [k] is present, appended otherwise. *)
Fixpoint dict_set (k : string) (v : Item) (d : list (string * Item))
  : list (string * Item) :=
  match d with
  | [] => [(k, v)]
  | (k', v') :: d' => if String.eqb k k' then (k', v) :: d' else (k', v') :: dict_set k v d'
  end.

(** [del d[k]]. *)
Definition dict_del (k : string) (d : list (string * Item)) : list (string * Item) :=
  filter (fun kv => negb (String.eqb k (fst kv))) d.

(** *** The set [self.categories] *)

Definition set_add (c : string) (s : list string) : list string :=
  if existsb (String.eqb c) s then s else s ++ [c].

Definition set_discard (c : string) (s : list string) : list string :=
  filter (fun c' => negb (String.eqb c c')) s.

(** *** Operations *)

(** [InventoryManager.add_item]; [today] is the clock reading of the new
    [Item]'s [date_added]. *)
Definition add_item (today : Date) (n c : string) (p : Q) (st : Manager) : bool * Manager :=
  match dict_get n (items st) with
  | None =>
      (true, mkManager (dict_set n (new_Item today n c p) (items st))
                       (ActDeleteItem n :: action_stack st)
                       (set_add c (categories st)))
  | Some _ => (false, st)
  end.

(** [InventoryManager.update_quantity] with an integer [quantity]; the
    [ValueError] of [strptime] is caught and yields [False]. *)
Definition update_quantity (n : string) (qty : Z) (expiry : string) (st : Manager)
  : bool * Manager :=
  match dict_get n (items st) with
  | Some it =>
      match strptime_date expiry with
      | Some e =>
          (true, mkManager (dict_set n (add_stock it qty e) (items st))
                           (ActUpdateQuantity n (- qty) :: action_stack st)
                           (categories st))
      | None => (false, st)
      end
  | None => (false, st)
  end.

(** The [for] loop of [InventoryManager.remove_expired]: every item is
    updated in place, in dict order; the message
    [f"{removed} units removed from '{item.name}'"] is represented by the
    pair [(item.name, removed)]. *)
Fixpoint remove_expired_items (today : Date) (d : list (string * Item))
  : list (string * Z) * list (string * Item) :=
  match d with
  | [] => ([], [])
  | (k, it) :: d' =>
      let '(removed, it') := Item_remove_expired today it in
      let '(msgs, d'') := remove_expired_items today d' in
      ((if removed =? 0 then [] else [(name it, removed)]) ++ msgs, (k, it') :: d'')
  end.

(** [InventoryManager.remove_expired]. *)
Definition remove_expired (today : Date) (st : Manager) : list (string * Z) * Manager :=
  let '(results, d) := remove_expired_items today (items st) in
  (results, mkManager d (action_stack st) (categories st)).

Definition msg_nothing : string := "No actions to undo.".

(** [InventoryManager.undo_last_action]; [None] is the [KeyError] raised by
    [self.items[action[1]]] on a missing name. *)
Definition undo_last_action (st : Manager) : option (string * Manager) :=
  match action_stack st with
  | [] => Some (msg_nothing, st)
  | ActDeleteItem n :: rest =>
      match dict_get n (items st) with
      | Some it =>
          Some ("Undid: Deleted item '" ++ n ++ "'",
                mkManager (dict_del n (items st)) rest
                          (set_discard (category it) (categories st)))%string
      | None => None
      end
  | ActUpdateQuantity n delta :: rest =>
      match dict_get n (items st) with
      | Some it =>
          Some ("Undid: Quantity adjustment for '" ++ n ++ "'",
                mkManager (dict_set n (mkItem (name it) (category it) (price it)
                                        (quantity it + delta) (expiry_queue it)
                                        (date_added it)) (items st))
                          rest (categories st))%string
      | None => None
      end
  end.

(** *** [InventoryManager.generate_report] *)

(** A row of the report.  The price and value are kept as numbers (the
    source formats them as [f"₹{...:.2f}"]); the expiry dates are joined
    with [", "]. *)
Record Row := mkRow {
  r_name : string;
  r_category : string;
  r_quantity : Z;
  r_price : Q;
  r_value : Q;
  r_expiry_dates : string
}.

Definition make_row (n : string) (it : Item) : Row :=
  mkRow n (category it) (quantity it) (price it)
        (inject_Z (quantity it) * price it)%Q
        (String.concat ", " (map (fun b => date_str (fst b)) (expiry_queue it))).

(** [sorted(self.items.items())]: names are the dict's keys, so the tuples
    are ordered by name; a stable insertion sort. *)
Fixpoint insert_by_name (kv : string * Item) (l : list (string * Item)) :=
  match l with
  | [] => [kv]
  | kv' :: l' => if String.ltb (fst kv') (fst kv) then kv' :: insert_by_name kv l' else kv :: l
  end.

Fixpoint sort_by_name (l : list (string * Item)) : list (string * Item) :=
  match l with
  | [] => []
  | kv :: l' => insert_by_name kv (sort_by_name l')
  end.

(** Python truthiness of [category_filter] ([None] and [""] are false). *)
Definition filter_truthy (f : option string) : bool :=
  match f with Some c => negb (String.eqb c "") | None => false end.

(** [if category_filter and item.category != category_filter: continue] *)
Definition skip_item (f : option string) (it : Item) : bool :=
  filter_truthy f
  && match f with Some c => negb (String.eqb (category it) c) | None => true end.

Definition generate_report (f : option string) (st : Manager) : list Row :=
  map (fun kv => make_row (fst kv) (snd kv))
      (filter (fun kv => negb (skip_item f (snd kv))) (sort_by_name (items st))).

(** *** [export_to_json] and [import_from_json]

    The JSON text itself is a boundary format: the snapshot is the dict of
    [Item.to_dict] values that [json.dump] writes and [json.load] reads
    back. *)
Record Snapshot := mkSnapshot {
  s_name : string;
  s_category : string;
  s_price : Q;
  s_quantity : Z;
  s_expiry_dates : list string;
  s_date_added : string
}.

(** [Item.to_dict]. *)
Definition to_dict (it : Item) : Snapshot :=
  mkSnapshot (name it) (category it) (price it) (quantity it)
             (map (fun b => date_str (fst b)) (expiry_queue it)) (date_str (date_added it)).

Definition export_to_json (st : Manager) : list (string * Snapshot) :=
  map (fun kv => (fst kv, to_dict (snd kv))) (items st).

(** The list comprehension of [strptime] over [item_data['expiry_dates']];
    the first [ValueError] aborts it. *)
Fixpoint parse_all (l : list string) : option (list Date) :=
  match l with
  | [] => Some []
  | s :: l' => obind (strptime_date s) (fun d => obind (parse_all l') (fun ds => Some (d :: ds)))
  end.

(** [for date in expiry_dates: self.update_quantity(name, 1, str(date))] *)
Fixpoint replay_dates (n : string) (ds : list Date) (st : Manager) : Manager :=
  match ds with
  | [] => st
  | d :: ds' => replay_dates n ds' (snd (update_quantity n 1 (date_str d) st))
  end.

(** The loop of [import_from_json]: an exception leaves the entries already
    applied in place and returns [False]. *)
Fixpoint import_entries (today : Date) (data : list (string * Snapshot)) (st : Manager)
  : bool * Manager :=
  match data with
  | [] => (true, st)
  | (k, e) :: data' =>
      let st1 := snd (add_item today k (s_category e) (s_price e) st) in
      match parse_all (s_expiry_dates e) with
      | Some ds => import_entries today data' (replay_dates k ds st1)
      | None => (false, st1)
      end
  end.

Definition import_from_json (today : Date) (data : list (string * Snapshot)) (st : Manager)
  : bool * Manager :=
  import_entries today data st.

(** ** Runs of the core operations *)

Inductive op :=
| OpAddItem (today : Date) (n c : string) (p : Q)
| OpUpdateQuantity (n : string) (qty : Z) (expiry : string)
| OpRemoveExpired (today : Date)
| OpUndo.

(** The state after one call; [None] when the call raises. *)
Definition exec_op (o : op) (st : Manager) : option Manager :=
  match o with
  | OpAddItem t n c p => Some (snd (add_item t n c p st))
  | OpUpdateQuantity n q s => Some (snd (update_quantity n q s st))
  | OpRemoveExpired t => Some (snd (remove_expired t st))
  | OpUndo => option_map snd (undo_last_action st)
  end.

Fixpoint run (ops : list op) (st : Manager) : option Manager :=
  match ops with
  | [] => Some st
  | o :: ops' => obind (exec_op o st) (run ops')
  end.

(** States reachable from a fresh [InventoryManager()] by calls that
    [allowed] admits. *)
Inductive reachable_by (allowed : Manager -> op -> bool) : Manager -> Prop :=
| rb_init : reachable_by allowed empty_manager
| rb_step st o st' :
    reachable_by allowed st -> allowed st o = true -> exec_op o st = Some st' ->
    reachable_by allowed st'.

Definition any_op (_ : Manager) (_ : op) : bool := true.

Definition reachable : Manager -> Prop := reachable_by any_op.

(** Calls other than an undo that pops an [update_quantity] record. *)
Definition no_stock_undo (st : Manager) (o : op) : bool :=
  match o, action_stack st with
  | OpUndo, ActUpdateQuantity _ _ :: _ => false
  | _, _ => true
  end.

(** Calls other than an undo that pops a [delete_item] record. *)
Definition no_create_undo (st : Manager) (o : op) : bool :=
  match o, action_stack st with
  | OpUndo, ActDeleteItem _ :: _ => false
  | _, _ => true
  end.

(** Sum of the quantities of a batch list. *)
Definition batch_sum (q : list Batch) : Z := fold_right (fun b acc => snd b + acc) 0 q.

(** ** Concrete runs *)

Definition day0 : Date := mkDate 2024 6 1.

(** The state a run of calls from a fresh manager ends in. *)
Definition state_after (ops : list op) : Manager :=
  match run ops empty_manager with Some st => st | None => empty_manager end.

(** Stock an item, then undo the stocking. *)
Definition ops_undo_stock : list op :=
  [OpAddItem day0 "Milk" "Dairy" (50 # 1); OpUpdateQuantity "Milk" 5 "2020-01-01";
   OpUndo].

(** Two items of one category, then undo the second creation. *)
Definition ops_shared_category : list op :=
  [OpAddItem day0 "A" "Dairy" 1; OpAddItem day0 "B" "Dairy" 1; OpUndo].

(** Items ["b"] and ["a"], created in that order, each with an expired batch. *)
Definition ops_two_expired : list op :=
  [OpAddItem day0 "b" "X" 1; OpAddItem day0 "a" "X" 1;
   OpUpdateQuantity "b" 1 "2020-01-01"; OpUpdateQuantity "a" 1 "2020-01-01"].

(** One item stocked with a single batch of 10 units. *)
Definition ops_milk10 : list op :=
  [OpAddItem day0 "Milk" "Dairy" (50 # 1); OpUpdateQuantity "Milk" 10 "2099-01-01"].

(** The first item of a state, in dict order. *)
Definition first_item (st : Manager) : Item :=
  match items st with
  | (_, it) :: _ => it
  | [] => new_Item day0 "" "" 0
  end.

(** The item [import_from_json] rebuilds from an exported item stored under
    key [k]: one unit batch per exported expiry date. *)
Definition reimported (today : Date) (k : string) (it : Item) : Item :=
  mkItem k (category it) (price it) (Z.of_nat (List.length (expiry_queue it)))
         (map (fun b => (fst b, 1)) (expiry_queue it)) today.

(** The order of batches: by expiry date. *)
Definition batch_le (x y : Batch) : Prop := date_leb (fst x) (fst y) = true.

(** Batches of expiry date [k]. *)
Definition date_eqb (a b : Date) : bool :=
  (year a =? year b) && (month a =? month b) && (day a =? day b).

Definition same_date (k : Date) (b : Batch) : bool := date_eqb (fst b) k.

(** A sequence of [Item.add_stock(quantity, expiry_date)] calls. *)
Definition add_stock_calls (it : Item) (adds : list (Z * Date)) : Item :=
  fold_left (fun it' a => add_stock it' (fst a) (snd a)) adds it.

(** The batches the calls append, in call order. *)
Definition batches_of_calls (adds : list (Z * Date)) : list Batch :=
  map (fun a => (snd a, fst a)) adds.

(** [InventoryManager.get_item_details]: the detail dict, or [None]. *)
Record Details := mkDetails {
  d_name : string;
  d_category : string;
  d_quantity : Z;
  d_price : Q;
  d_total_value : Q;
  d_expiry_dates : list string
}.

Definition get_item_details (n : string) (st : Manager) : option Details :=
  match dict_get n (items st) with
  | Some it =>
      Some (mkDetails n (category it) (quantity it) (price it)
                      (inject_Z (quantity it) * price it)%Q
                      (map (fun b => date_str (fst b)) (expiry_queue it)))
  | None => None
  end.

(** The item name an undo record refers to ([action[1]]). *)
Definition action_name (a : action) : string :=
  match a with ActDeleteItem n => n | ActUpdateQuantity n _ => n end.

(** The undo stack can be popped safely: every record names a live item, and
    below a [delete_item] record no record names that item. *)
Fixpoint stack_ok (d : list (string * Item)) (s : list action) : Prop :=
  match s with
  | [] => True
  | a :: rest =>
      dict_get (action_name a) d <> None
      /\ match a with
         | ActDeleteItem n => Forall (fun a' => action_name a' <> n) rest
         | ActUpdateQuantity _ _ => True
         end
      /\ stack_ok d rest
  end.

(** Snapshot entries of an import file, the second with a bad month. *)
Definition snap_ok : Snapshot :=
  mkSnapshot "Tea" "Drinks" 2 1 ["2099-01-01"%string] "2024-06-01".

Definition snap_bad : Snapshot :=
  mkSnapshot "Jam" "Food" 3 1 ["2099-01-01"%string; "2024-13-01"%string] "2024-06-01".

(** ** Basic facts *)

Ltac zbool :=
  repeat match goal with
  | |- context [?x <? ?y] => destruct (Z.ltb_spec x y)
  | |- context [?x =? ?y] => destruct (Z.eqb_spec x y)
  | H : context [?x <? ?y] |- _ => destruct (Z.ltb_spec x y)
  | H : context [?x =? ?y] |- _ => destruct (Z.eqb_spec x y)
  end; simpl in *; try lia; try congruence.

Lemma date_ltb_irrefl (a : Date) : date_ltb a a = false.
Proof. destruct a; unfold date_ltb; simpl; zbool. Qed.

Lemma date_ltb_asym (a b : Date) : date_ltb a b = true -> date_ltb b a = false.
Proof. destruct a, b; unfold date_ltb; simpl; zbool. Qed.

Lemma date_ltb_iff (a b : Date) :
  date_ltb a b = true
  <-> year a < year b
      \/ (year a = year b /\ (month a < month b \/ (month a = month b /\ day a < day b))).
Proof.
  unfold date_ltb.
  rewrite orb_true_iff, andb_true_iff, orb_true_iff, andb_true_iff, !Z.ltb_lt, !Z.eqb_eq.
  tauto.
Qed.

Lemma date_ltb_false_iff (a b : Date) :
  date_ltb a b = false
  <-> ~ (year a < year b
         \/ (year a = year b /\ (month a < month b \/ (month a = month b /\ day a < day b)))).
Proof. rewrite <- date_ltb_iff. destruct (date_ltb a b); split; congruence. Qed.

Lemma date_ltb_trans (a b c : Date) :
  date_ltb a b = true -> date_ltb b c = true -> date_ltb a c = true.
Proof. rewrite !date_ltb_iff. lia. Qed.

Lemma date_leb_trans (a b c : Date) :
  date_leb a b = true -> date_leb b c = true -> date_leb a c = true.
Proof. unfold date_leb. rewrite !negb_true_iff, !date_ltb_false_iff. lia. Qed.

(** A batch not before a live one is live too. *)
Lemma date_leb_ltb (a b t : Date) :
  date_leb a b = true -> date_ltb b t = true -> date_ltb a t = true.
Proof. unfold date_leb. rewrite negb_true_iff, date_ltb_false_iff, !date_ltb_iff. lia. Qed.

Lemma date_eqb_spec (a b : Date) : date_eqb a b = true <-> a = b.
Proof.
  destruct a, b; unfold date_eqb; simpl; split; intro H.
  - zbool; subst; reflexivity.
  - injection H; intros; subst; zbool.
Qed.

(** *** The dict *)

Lemma dict_get_set (k n : string) (v : Item) (d : list (string * Item)) :
  dict_get k (dict_set n v d) = if String.eqb k n then Some v else dict_get k d.
Proof.
  induction d as [| [k' v'] d IH]; simpl.
  - reflexivity.
  - destruct (String.eqb_spec n k') as [<- | Hne]; simpl.
    + destruct (String.eqb k n); reflexivity.
    + rewrite IH. destruct (String.eqb_spec k n), (String.eqb_spec k k'); congruence.
Qed.

Lemma dict_get_del (k n : string) (d : list (string * Item)) :
  dict_get k (dict_del n d) = if String.eqb k n then None else dict_get k d.
Proof.
  unfold dict_del. induction d as [| [k' v'] d IH]; simpl.
  - destruct (String.eqb k n); reflexivity.
  - destruct (String.eqb_spec n k') as [<- | Hne]; simpl.
    + rewrite IH. destruct (String.eqb k n); reflexivity.
    + rewrite IH. destruct (String.eqb_spec k n), (String.eqb_spec k k'); congruence.
Qed.

Lemma dict_get_None_iff (k : string) (d : list (string * Item)) :
  dict_get k d = None <-> ~ In k (map fst d).
Proof.
  induction d as [| [k' v'] d IH]; simpl.
  - tauto.
  - destruct (String.eqb_spec k k'); subst.
    + split; [discriminate | tauto].
    + rewrite IH. intuition.
Qed.

Lemma dict_get_In (k : string) (v : Item) (d : list (string * Item)) :
  dict_get k d = Some v -> In (k, v) d.
Proof.
  induction d as [| [k' v'] d IH]; simpl; [discriminate |].
  destruct (String.eqb_spec k k'); [intro H; injection H; intros; subst; left; reflexivity |].
  intro H; right; apply IH, H.
Qed.

Lemma dict_keys_set_absent (n : string) (v : Item) (d : list (string * Item)) :
  dict_get n d = None -> dict_set n v d = d ++ [(n, v)].
Proof.
  induction d as [| [k' v'] d IH]; simpl; [reflexivity |].
  destruct (String.eqb_spec n k'); [discriminate |].
  intro H; rewrite IH by exact H; reflexivity.
Qed.

Lemma dict_keys_set_present (n : string) (v : Item) (d : list (string * Item)) :
  dict_get n d <> None -> map fst (dict_set n v d) = map fst d.
Proof.
  induction d as [| [k' v'] d IH]; simpl; [congruence |].
  destruct (String.eqb_spec n k'); simpl; [reflexivity |].
  intro H; rewrite IH by exact H; reflexivity.
Qed.

Lemma Forall_dict_set (P : Item -> Prop) (n : string) (v : Item) (d : list (string * Item)) :
  Forall (fun kv => P (snd kv)) d -> P v -> Forall (fun kv => P (snd kv)) (dict_set n v d).
Proof.
  induction d as [| [k' v'] d IH]; simpl; intros Hd Hv.
  - constructor; [exact Hv | constructor].
  - inversion Hd; subst. destruct (String.eqb n k'); constructor; auto.
Qed.

Lemma Forall_dict_del (P : Item -> Prop) (n : string) (d : list (string * Item)) :
  Forall (fun kv => P (snd kv)) d -> Forall (fun kv => P (snd kv)) (dict_del n d).
Proof.
  intro H. unfold dict_del. rewrite Forall_forall in *.
  intros kv Hin. apply filter_In in Hin. apply H, Hin.
Qed.

Lemma Forall_dict_get (P : Item -> Prop) (k : string) (v : Item) (d : list (string * Item)) :
  Forall (fun kv => P (snd kv)) d -> dict_get k d = Some v -> P v.
Proof.
  intros Hd Hg. apply dict_get_In in Hg.
  rewrite Forall_forall in Hd. apply (Hd _ Hg).
Qed.

(** *** The stable sort on expiry dates *)

Lemma insert_by_expiry_perm (b : Batch) (l : list Batch) :
  Permutation (insert_by_expiry b l) (b :: l).
Proof.
  induction l as [| c l IH]; simpl; [reflexivity |].
  destruct (date_ltb (fst c) (fst b)); [| reflexivity].
  rewrite IH. apply perm_swap.
Qed.

Lemma sort_by_expiry_perm (l : list Batch) : Permutation (sort_by_expiry l) l.
Proof.
  induction l as [| b l IH]; simpl; [reflexivity |].
  rewrite insert_by_expiry_perm, IH. reflexivity.
Qed.

Lemma insert_by_expiry_HdRel (a b : Batch) (l : list Batch) :
  HdRel batch_le a l -> batch_le a b -> HdRel batch_le a (insert_by_expiry b l).
Proof.
  intros H Hab. destruct l as [| c l]; simpl; [constructor; exact Hab |].
  destruct (date_ltb (fst c) (fst b)); constructor; [inversion H; assumption | exact Hab].
Qed.

Lemma insert_by_expiry_sorted (b : Batch) (l : list Batch) :
  Sorted batch_le l -> Sorted batch_le (insert_by_expiry b l).
Proof.
  induction l as [| c l IH]; simpl; intro Hs.
  - repeat constructor.
  - inversion Hs as [| ? ? Hl Hh]; subst.
    destruct (date_ltb (fst c) (fst b)) eqn:Hcb.
    + constructor; [apply IH, Hl |].
      apply insert_by_expiry_HdRel; [exact Hh |].
      unfold batch_le, date_leb. rewrite date_ltb_asym by exact Hcb. reflexivity.
    + constructor; [exact Hs |]. constructor.
      unfold batch_le, date_leb. rewrite Hcb. reflexivity.
Qed.

Lemma sort_by_expiry_sorted (l : list Batch) : Sorted batch_le (sort_by_expiry l).
Proof.
  induction l as [| b l IH]; simpl; [constructor |].
  apply insert_by_expiry_sorted, IH.
Qed.

Lemma filter_insert_by_expiry (k : Date) (b : Batch) (l : list Batch) :
  filter (same_date k) (insert_by_expiry b l)
  = if same_date k b then b :: filter (same_date k) l else filter (same_date k) l.
Proof.
  induction l as [| c l IH]; simpl; [reflexivity |].
  destruct (date_ltb (fst c) (fst b)) eqn:Hcb; simpl.
  - rewrite IH. unfold same_date.
    destruct (date_eqb (fst b) k) eqn:Hb; [| reflexivity].
    apply date_eqb_spec in Hb.
    destruct (date_eqb (fst c) k) eqn:Hc; [| reflexivity].
    apply date_eqb_spec in Hc. rewrite Hb, Hc, date_ltb_irrefl in Hcb. discriminate.
  - destruct (same_date k b); reflexivity.
Qed.

Lemma filter_sort_by_expiry (k : Date) (l : list Batch) :
  filter (same_date k) (sort_by_expiry l) = filter (same_date k) l.
Proof.
  induction l as [| b l IH]; simpl; [reflexivity |].
  rewrite filter_insert_by_expiry, IH. reflexivity.
Qed.

(** Sorting a sorted list leaves it as it is. *)
Lemma sort_by_expiry_id (l : list Batch) : Sorted batch_le l -> sort_by_expiry l = l.
Proof.
  induction l as [| b l IH]; simpl; intro Hs; [reflexivity |].
  inversion Hs as [| ? ? Hl Hh]; subst. rewrite IH by exact Hl.
  destruct l as [| c l]; simpl; [reflexivity |].
  inversion Hh as [| ? ? Hbc]; subst. unfold batch_le, date_leb in Hbc.
  destruct (date_ltb (fst c) (fst b)); [discriminate | reflexivity].
Qed.

Lemma batch_sum_app (l1 l2 : list Batch) : batch_sum (l1 ++ l2) = batch_sum l1 + batch_sum l2.
Proof. induction l1 as [| b l1 IH]; simpl; [reflexivity | rewrite IH; lia]. Qed.

Lemma batch_sum_perm (l1 l2 : list Batch) : Permutation l1 l2 -> batch_sum l1 = batch_sum l2.
Proof. induction 1; simpl; lia. Qed.

Lemma Sorted_app_l {A} (R : A -> A -> Prop) (l1 l2 : list A) :
  Sorted R (l1 ++ l2) -> Sorted R l1.
Proof.
  induction l1 as [| a l1 IH]; simpl; intro H; [constructor |].
  inversion H as [| ? ? Hs Hh]; subst. constructor; [apply IH, Hs |].
  destruct l1; simpl in *; constructor. inversion Hh; assumption.
Qed.

(** The general form of [add_stock_calls]: from a sorted ledger. *)
Lemma add_stock_calls_spec (adds : list (Z * Date)) (it : Item) :
  Sorted batch_le (expiry_queue it) ->
  let q := expiry_queue (add_stock_calls it adds) in
  Sorted batch_le q
  /\ Permutation q (expiry_queue it ++ batches_of_calls adds)
  /\ forall k, filter (same_date k) q = filter (same_date k) (expiry_queue it ++ batches_of_calls adds).
Proof.
  revert it. induction adds as [| [qty e] adds IH]; intros it Hs; simpl.
  - rewrite app_nil_r. split; [exact Hs | split; [reflexivity | reflexivity]].
  - destruct (IH (add_stock it qty e)) as (H1 & H2 & H3);
      [apply sort_by_expiry_sorted |].
    simpl in H2, H3. split; [exact H1 | split].
    + rewrite H2, sort_by_expiry_perm, <- app_assoc. reflexivity.
    + intro k. rewrite H3, filter_app, filter_sort_by_expiry, <- filter_app, <- app_assoc.
      reflexivity.
Qed.

(** *** [Item.remove_expired] *)

Definition expired (today : Date) (b : Batch) : bool := date_ltb (fst b) today.

Lemma remove_expired_loop_sum (today : Date) (q : list Batch) (qn r : Z) :
  let '(qn', r', q') := remove_expired_loop today q qn r in
  qn' = qn - (r' - r) /\ batch_sum q = batch_sum q' + (r' - r)
  /\ exists pre, q = pre ++ q'.
Proof.
  revert qn r. induction q as [| [e qty] q IH]; intros qn r; simpl.
  - split; [lia | split; [lia | exists []; reflexivity]].
  - destruct (date_ltb e today).
    + specialize (IH (qn - qty) (r + qty)).
      destruct (remove_expired_loop today q (qn - qty) (r + qty)) as [[qn' r'] q'].
      destruct IH as (H1 & H2 & pre & H3). split; [lia | split; [lia |]].
      exists ((e, qty) :: pre). rewrite H3. reflexivity.
    + simpl. split; [lia | split; [lia | exists []; reflexivity]].
Qed.

Lemma filter_none {A} (f : A -> bool) (l : list A) :
  Forall (fun x => f x = false) l -> filter f l = [].
Proof. induction 1 as [| x l Hx _ IH]; simpl; [reflexivity | rewrite Hx; exact IH]. Qed.

Lemma filter_all {A} (f : A -> bool) (l : list A) :
  Forall (fun x => f x = true) l -> filter f l = l.
Proof. induction 1 as [| x l Hx _ IH]; simpl; [reflexivity | rewrite Hx, IH; reflexivity]. Qed.

Ltac pair_eq :=
  repeat match goal with |- (_, _) = (_, _) => f_equal end; try reflexivity; try lia.

#[local] Instance batch_le_trans : Transitive batch_le.
Proof. intros x y z. unfold batch_le. apply date_leb_trans. Qed.

(** On a sorted ledger the prefix scan drops exactly the expired batches. *)
Lemma remove_expired_loop_sorted (today : Date) (q : list Batch) (qn r : Z) :
  Sorted batch_le q ->
  remove_expired_loop today q qn r
  = (qn - batch_sum (filter (expired today) q),
     r + batch_sum (filter (expired today) q),
     filter (fun b => negb (expired today b)) q).
Proof.
  intro Hs. apply Sorted_StronglySorted in Hs; [| exact batch_le_trans].
  revert qn r. induction Hs as [| [e qty] q Hs IH Hall]; intros qn r; simpl.
  - pair_eq.
  - replace (expired today (e, qty)) with (date_ltb e today) by reflexivity.
    destruct (date_ltb e today) eqn:He; simpl.
    + rewrite IH. pair_eq.
    + assert (Hk : Forall (fun b => expired today b = false) q).
      { rewrite Forall_forall in *. intros b Hb. specialize (Hall b Hb).
        unfold expired. destruct (date_ltb (fst b) today) eqn:Hbt; [| reflexivity].
        rewrite (date_leb_ltb e (fst b) today Hall Hbt) in He. discriminate. }
      rewrite (filter_none _ _ Hk), (filter_all (fun b => negb (expired today b)) q).
      2:{ revert Hk. apply Forall_impl. intros b Hb. rewrite Hb. reflexivity. }
      simpl. pair_eq.
Qed.

Lemma Sorted_app_r {A} (R : A -> A -> Prop) (l1 l2 : list A) :
  Sorted R (l1 ++ l2) -> Sorted R l2.
Proof.
  induction l1 as [| a l1 IH]; simpl; intro H; [exact H |].
  inversion H; subst. apply IH; assumption.
Qed.

(** *** [InventoryManager.remove_expired] *)

Lemma remove_expired_items_eq (today : Date) (d : list (string * Item)) :
  remove_expired_items today d
  = (flat_map (fun kv => let r := fst (Item_remove_expired today (snd kv)) in
                         if r =? 0 then [] else [(name (snd kv), r)]) d,
     map (fun kv => (fst kv, snd (Item_remove_expired today (snd kv)))) d).
Proof.
  induction d as [| [k it] d IH]; simpl; [reflexivity |].
  destruct (Item_remove_expired today it) as [r it'] eqn:E.
  rewrite IH. reflexivity.
Qed.

Lemma dict_get_map (f : Item -> Item) (k : string) (d : list (string * Item)) :
  dict_get k (map (fun kv => (fst kv, f (snd kv))) d) = option_map f (dict_get k d).
Proof.
  induction d as [| [k' v] d IH]; simpl; [reflexivity |].
  destruct (String.eqb k k'); [reflexivity | exact IH].
Qed.

(** *** Invariants of the items *)

Section ItemInvariant.
Variable allowed : Manager -> op -> bool.
Variable P : Item -> Prop.
Hypothesis P_new : forall t n c p, P (new_Item t n c p).
Hypothesis P_add : forall it qty s e, strptime_date s = Some e -> P it -> P (add_stock it qty e).
Hypothesis P_expire : forall t it, P it -> P (snd (Item_remove_expired t it)).
Hypothesis P_undo : forall st n delta rest it,
  allowed st OpUndo = true -> action_stack st = ActUpdateQuantity n delta :: rest ->
  dict_get n (items st) = Some it -> P it ->
  P (mkItem (name it) (category it) (price it) (quantity it + delta)
            (expiry_queue it) (date_added it)).

Lemma items_invariant (st : Manager) :
  reachable_by allowed st -> Forall (fun kv => P (snd kv)) (items st).
Proof.
  induction 1 as [| st o st' Hr IH Hal Hex]; [constructor |].
  destruct o as [t n c p | n qty s | t |]; simpl in Hex.
  - injection Hex as <-. unfold add_item.
    destruct (dict_get n (items st)); simpl; [exact IH |].
    apply Forall_dict_set; [exact IH | apply P_new].
  - injection Hex as <-. unfold update_quantity.
    destruct (dict_get n (items st)) as [it |] eqn:Hg; simpl; [| exact IH].
    destruct (strptime_date s) as [e |] eqn:Hs; simpl; [| exact IH].
    apply Forall_dict_set; [exact IH |].
    apply (P_add _ _ s); [exact Hs | apply (Forall_dict_get P n it _ IH Hg)].
  - injection Hex as <-. unfold remove_expired. rewrite remove_expired_items_eq. simpl.
    apply Forall_map. revert IH. apply Forall_impl. intros [k it] H. apply P_expire, H.
  - unfold undo_last_action in Hex.
    destruct (action_stack st) as [| [n | n delta] rest] eqn:Hst.
    + simpl in Hex. injection Hex as <-. exact IH.
    + destruct (dict_get n (items st)) as [it |] eqn:Hg; [| discriminate].
      simpl in Hex. injection Hex as <-. simpl. apply Forall_dict_del, IH.
    + destruct (dict_get n (items st)) as [it |] eqn:Hg; [| discriminate].
      simpl in Hex. injection Hex as <-. simpl.
      apply Forall_dict_set; [exact IH |].
      apply (P_undo st n delta rest it Hal Hst Hg).
      apply (Forall_dict_get P n it _ IH Hg).
Qed.
End ItemInvariant.

Lemma run_reachable_by (allowed : Manager -> op -> bool) (ops : list op) (st0 st : Manager) :
  reachable_by allowed st0 -> Forall (fun o => forall s, allowed s o = true) ops ->
  run ops st0 = Some st -> reachable_by allowed st.
Proof.
  revert st0. induction ops as [| o ops IH]; intros st0 Hr Hal Hrun; simpl in Hrun.
  - injection Hrun as <-. exact Hr.
  - inversion Hal as [| ? ? Ho Hops]; subst.
    destruct (exec_op o st0) as [st1 |] eqn:He; [| discriminate].
    apply (IH st1); [| exact Hops | exact Hrun].
    apply (rb_step _ st0 o st1 Hr (Ho st0) He).
Qed.

Lemma state_after_reachable (ops : list op) (st : Manager) :
  run ops empty_manager = Some st -> reachable (state_after ops) /\ state_after ops = st.
Proof.
  intro H. unfold state_after. rewrite H. split; [| reflexivity].
  apply (run_reachable_by any_op ops empty_manager); [constructor | | exact H].
  apply Forall_forall. reflexivity.
Qed.

Lemma strptime_date_valid (s : string) (e : Date) :
  strptime_date s = Some e -> date_valid e = true.
Proof.
  unfold strptime_date, obind.
  destruct (match_Y s) as [[y s1] |]; [| discriminate].
  destruct (lit "-" s1) as [s2 |]; [| discriminate].
  destruct (match_m s2) as [[m s3] |]; [| discriminate].
  destruct (lit "-" s3) as [s4 |]; [| discriminate].
  destruct (match_d s4) as [[dd s5] |]; [| discriminate].
  destruct s5; [| discriminate].
  destruct (date_valid (mkDate y m dd)) eqn:Hv; [| discriminate].
  intro H; injection H as <-. exact Hv.
Qed.

(** Every live ledger is sorted by expiry date. *)
Lemma ledgers_sorted (allowed : Manager -> op -> bool) (st : Manager) :
  reachable_by allowed st ->
  Forall (fun kv => Sorted batch_le (expiry_queue (snd kv))) (items st).
Proof.
  apply (items_invariant allowed (fun it => Sorted batch_le (expiry_queue it))).
  - intros. simpl. constructor.
  - intros it qty s e _ _. apply sort_by_expiry_sorted.
  - intros t it Hs. unfold Item_remove_expired.
    pose proof (remove_expired_loop_sum t (expiry_queue it) (quantity it) 0) as H.
    destruct (remove_expired_loop t (expiry_queue it) (quantity it) 0) as [[qn r] q].
    destruct H as (_ & _ & pre & Hq). simpl. rewrite Hq in Hs.
    apply (Sorted_app_r _ pre), Hs.
  - intros. simpl. assumption.
Qed.

(** Every expiry date of a live ledger is a date [strptime] returned. *)
Lemma ledgers_valid (allowed : Manager -> op -> bool) (st : Manager) :
  reachable_by allowed st ->
  Forall (fun kv => Forall (fun b => date_valid (fst b) = true) (expiry_queue (snd kv)))
         (items st).
Proof.
  apply (items_invariant allowed
           (fun it => Forall (fun b => date_valid (fst b) = true) (expiry_queue it))).
  - intros. simpl. constructor.
  - intros it qty s e Hs Hv. simpl.
    apply (Permutation_Forall (Permutation_sym (sort_by_expiry_perm _))).
    apply Forall_app. split; [exact Hv |]. constructor; [| constructor]. simpl.
    apply (strptime_date_valid s), Hs.
  - intros t it Hv. unfold Item_remove_expired.
    pose proof (remove_expired_loop_sum t (expiry_queue it) (quantity it) 0) as H.
    destruct (remove_expired_loop t (expiry_queue it) (quantity it) 0) as [[qn r] q].
    destruct H as (_ & _ & pre & Hq). simpl. rewrite Hq in Hv.
    apply Forall_app in Hv. apply Hv.
  - intros. simpl. assumption.
Qed.

(** ** The claims *)

(** *** C1 *)

(** C1 (amended): in every state reachable by [add_item], [update_quantity],
    [remove_expired] and by undos of [delete_item] records -- that is, every
    run that never undoes an [update_quantity] record -- each live item's
    [quantity] is the sum of the quantities of its ledger's batches. *)
Theorem total_quantity_matches_ledger (st : Manager) (k : string) (it : Item) :
  reachable_by no_stock_undo st -> dict_get k (items st) = Some it ->
  quantity it = batch_sum (expiry_queue it).
Proof.
  intros Hr Hg.
  apply (Forall_dict_get (fun it => quantity it = batch_sum (expiry_queue it)) k it (items st));
    [| exact Hg].
  apply (items_invariant no_stock_undo (fun it => quantity it = batch_sum (expiry_queue it)));
    [| | | | exact Hr].
  - reflexivity.
  - intros it' qty s e _ H. simpl.
    rewrite (batch_sum_perm _ _ (sort_by_expiry_perm _)), batch_sum_app, H. simpl. lia.
  - intros t it' H. unfold Item_remove_expired.
    pose proof (remove_expired_loop_sum t (expiry_queue it') (quantity it') 0) as Hl.
    destruct (remove_expired_loop t (expiry_queue it') (quantity it') 0) as [[qn r] q].
    destruct Hl as (H1 & H2 & _). simpl. lia.
  - intros st' n delta rest it' Hal Hst. unfold no_stock_undo in Hal. rewrite Hst in Hal.
    discriminate.
Qed.

Lemma total_quantity_matches_ledger_witness :
  reachable_by no_stock_undo (state_after ops_milk10)
  /\ quantity (first_item (state_after ops_milk10))
     = batch_sum (expiry_queue (first_item (state_after ops_milk10))).
Proof.
  assert (Hr : reachable_by no_stock_undo (state_after ops_milk10)).
  { apply (run_reachable_by no_stock_undo ops_milk10 empty_manager); [constructor | |].
    - repeat constructor.
    - vm_compute. reflexivity. }
  split; [exact Hr |].
  apply (total_quantity_matches_ledger (state_after ops_milk10) "Milk"); [exact Hr |].
  vm_compute. reflexivity.
Defined.

(** C1 (counterexample): after [add_item("Milk", "Dairy", 50)],
    [update_quantity("Milk", 5, "2020-01-01")] and [undo_last_action()],
    the item's quantity is 0 while its ledger still holds a batch of 5. *)
Lemma undo_stock_breaks_total :
  reachable (state_after ops_undo_stock)
  /\ exists it, dict_get "Milk" (items (state_after ops_undo_stock)) = Some it
       /\ quantity it = 0 /\ batch_sum (expiry_queue it) = 5.
Proof.
  destruct (state_after_reachable ops_undo_stock (state_after ops_undo_stock)) as [Hr _];
    [vm_compute; reflexivity |].
  split; [exact Hr |].
  eexists. split; [vm_compute; reflexivity | split; vm_compute; reflexivity].
Qed.

(** *** C3 *)

(** C3: in every reachable state, [Item.remove_expired] with clock reading
    [today] on a live item removes exactly the batches whose expiry date is
    strictly before [today], keeps the others in their order, returns the sum
    of the removed quantities and lowers [quantity] by that sum; the other
    fields are unchanged. *)
Theorem evict_expired_exact (st : Manager) (k : string) (it : Item) (today : Date) :
  reachable st -> dict_get k (items st) = Some it ->
  let removed := batch_sum (filter (expired today) (expiry_queue it)) in
  Item_remove_expired today it
  = (removed,
     mkItem (name it) (category it) (price it) (quantity it - removed)
            (filter (fun b => negb (expired today b)) (expiry_queue it)) (date_added it)).
Proof.
  intros Hr Hg removed.
  pose proof (Forall_dict_get (fun it => Sorted batch_le (expiry_queue it)) k it _
                           (ledgers_sorted any_op st Hr) Hg) as Hs. simpl in Hs.
  unfold Item_remove_expired. rewrite (remove_expired_loop_sorted _ _ _ _ Hs).
  subst removed. reflexivity.
Qed.

Lemma evict_expired_exact_witness :
  reachable (state_after ops_milk10)
  /\ dict_get "Milk" (items (state_after ops_milk10))
     = Some (first_item (state_after ops_milk10))
  /\ Item_remove_expired (mkDate 2100 1 1)
       (first_item (state_after ops_milk10))
     = (10, mkItem "Milk" "Dairy" (50 # 1) 0 [] day0).
Proof.
  destruct (state_after_reachable ops_milk10 (state_after ops_milk10)) as [Hr _];
    [vm_compute; reflexivity |].
  assert (Hg : dict_get "Milk" (items (state_after ops_milk10))
               = Some (first_item (state_after ops_milk10)))
    by (vm_compute; reflexivity).
  split; [exact Hr | split; [exact Hg |]].
  rewrite (evict_expired_exact _ _ _ (mkDate 2100 1 1) Hr Hg). vm_compute. reflexivity.
Defined.

(** *** C4 *)

(** C4: after any sequence of [add_stock] calls on a new item, its ledger is
    sorted ascending by expiry date, holds exactly the added batches, and
    the batches of any one expiry date appear in call order. *)
Theorem add_stock_sorted_stable (today : Date) (n c : string) (p : Q) (adds : list (Z * Date)) :
  let q := expiry_queue (add_stock_calls (new_Item today n c p) adds) in
  Sorted batch_le q
  /\ Permutation q (batches_of_calls adds)
  /\ forall k, filter (same_date k) q = filter (same_date k) (batches_of_calls adds).
Proof. exact (add_stock_calls_spec adds (new_Item today n c p) (Sorted_nil _)). Qed.

(** *** C2 *)

(** C2: when [undo_last_action] pops an [update_quantity] record
    [(name, delta)] of a live item, it adds [delta] to that item's
    [quantity]; the item's ledger and other fields, every other item, the
    dict order and the category set are unchanged, and the record is gone
    from the stack. *)
Theorem undo_update_quantity_frame (st : Manager) (n : string) (delta : Z)
  (rest : list action) (it : Item) :
  action_stack st = ActUpdateQuantity n delta :: rest ->
  dict_get n (items st) = Some it ->
  exists msg st', undo_last_action st = Some (msg, st')
  /\ dict_get n (items st')
     = Some (mkItem (name it) (category it) (price it) (quantity it + delta)
                    (expiry_queue it) (date_added it))
  /\ (forall k, k <> n -> dict_get k (items st') = dict_get k (items st))
  /\ map fst (items st') = map fst (items st)
  /\ categories st' = categories st
  /\ action_stack st' = rest.
Proof.
  intros Hst Hg. unfold undo_last_action. rewrite Hst, Hg.
  eexists; eexists; split; [reflexivity |]. simpl.
  split; [rewrite dict_get_set, String.eqb_refl; reflexivity |].
  split; [intros k Hk; rewrite dict_get_set; destruct (String.eqb_spec k n); congruence |].
  split; [apply dict_keys_set_present; congruence |].
  split; reflexivity.
Qed.

Lemma undo_update_quantity_frame_witness :
  exists msg st', undo_last_action (state_after ops_milk10) = Some (msg, st')
  /\ dict_get "Milk" (items st') = Some (mkItem "Milk" "Dairy" (50 # 1) 0
                                          [(mkDate 2099 1 1, 10)] day0)
  /\ (forall k, k <> "Milk"%string -> dict_get k (items st') = dict_get k (items (state_after ops_milk10)))
  /\ map fst (items st') = map fst (items (state_after ops_milk10))
  /\ categories st' = categories (state_after ops_milk10)
  /\ action_stack st' = [ActDeleteItem "Milk"].
Proof.
  apply (undo_update_quantity_frame (state_after ops_milk10) "Milk" (-10) [ActDeleteItem "Milk"]
           (first_item (state_after ops_milk10)));
    vm_compute; reflexivity.
Defined.

(** *** C5 *)

(** C5 (amended): [InventoryManager.remove_expired] returns one entry per
    item whose evicted quantity is nonzero, in the dict's insertion order,
    omits the others, updates every item in place, and leaves the undo stack
    and the category set unchanged. *)
Theorem remove_expired_all_results (today : Date) (st : Manager) :
  fst (remove_expired today st)
  = flat_map (fun kv => let r := fst (Item_remove_expired today (snd kv)) in
                        if r =? 0 then [] else [(name (snd kv), r)]) (items st)
  /\ items (snd (remove_expired today st))
     = map (fun kv => (fst kv, snd (Item_remove_expired today (snd kv)))) (items st)
  /\ action_stack (snd (remove_expired today st)) = action_stack st
  /\ categories (snd (remove_expired today st)) = categories st.
Proof.
  unfold remove_expired. rewrite remove_expired_items_eq. simpl.
  split; [reflexivity | split; [reflexivity | split; reflexivity]].
Qed.

(** C5 (counterexample): with items ["b"] then ["a"], both holding an
    expired batch, the result lists ["b"] before ["a"]: it is not in
    name order. *)
Lemma remove_expired_not_name_sorted :
  reachable (state_after ops_two_expired)
  /\ map fst (fst (remove_expired day0 (state_after ops_two_expired))) = ["b"; "a"]%string
  /\ ~ Sorted (fun x y => String.leb x y = true)
         (map fst (fst (remove_expired day0 (state_after ops_two_expired)))).
Proof.
  destruct (state_after_reachable ops_two_expired (state_after ops_two_expired)) as [Hr _];
    [vm_compute; reflexivity |].
  assert (Hm : map fst (fst (remove_expired day0 (state_after ops_two_expired)))
               = ["b"; "a"]%string) by (vm_compute; reflexivity).
  split; [exact Hr | split; [exact Hm |]].
  rewrite Hm. intro H. inversion H as [| ? ? _ Hh]; subst.
  inversion Hh as [| ? ? Hba]; subst. vm_compute in Hba. discriminate.
Qed.

(** *** C8 *)

(** C8: [update_quantity(name, quantity, expiry_date)] returns [False] and
    leaves the whole state (items, ledgers, totals, categories, undo stack)
    as it was when [name] is absent or [strptime] rejects the text;
    otherwise it stocks the item with the parsed date, pushes
    [('update_quantity', name, -quantity)] and returns [True]. *)
Theorem update_quantity_spec (st : Manager) (n : string) (qty : Z) (s : string) :
  (dict_get n (items st) = None \/ strptime_date s = None ->
   update_quantity n qty s st = (false, st))
  /\ (forall it e, dict_get n (items st) = Some it -> strptime_date s = Some e ->
      update_quantity n qty s st
      = (true, mkManager (dict_set n (add_stock it qty e) (items st))
                         (ActUpdateQuantity n (- qty) :: action_stack st)
                         (categories st))).
Proof.
  unfold update_quantity. split.
  - intros [H | H]; [rewrite H; reflexivity |].
    destruct (dict_get n (items st)); [rewrite H |]; reflexivity.
  - intros it e Hg Hs. rewrite Hg, Hs. reflexivity.
Qed.

Lemma update_quantity_spec_witness :
  update_quantity "Bread" 5 "2020-01-01" (state_after ops_milk10)
  = (false, state_after ops_milk10)
  /\ update_quantity "Milk" 5 "2020-13-01" (state_after ops_milk10)
     = (false, state_after ops_milk10).
Proof.
  split.
  - apply (update_quantity_spec (state_after ops_milk10) "Bread" 5 "2020-01-01").
    left. vm_compute. reflexivity.
  - apply (update_quantity_spec (state_after ops_milk10) "Milk" 5 "2020-13-01").
    right. vm_compute. reflexivity.
Defined.

(** *** C9 *)

Lemma In_set_add (c c' : string) (s : list string) :
  In c' (set_add c s) <-> c' = c \/ In c' s.
Proof.
  unfold set_add. destruct (existsb (String.eqb c) s) eqn:He.
  - apply existsb_exists in He. destruct He as (x & Hx & Hcx).
    apply String.eqb_eq in Hcx. subst x. split; [tauto |]. intros [-> | H]; assumption.
  - rewrite in_app_iff. simpl. intuition.
Qed.

(** C9: [add_item(name, category, price)] on a present [name] returns
    [False] and changes nothing; on an absent one it appends a new item with
    quantity 0 and an empty ledger, adds [category] to the category set,
    pushes [('delete_item', name)] and returns [True]. *)
Theorem add_item_spec (today : Date) (n c : string) (p : Q) (st : Manager) :
  (dict_get n (items st) <> None -> add_item today n c p st = (false, st))
  /\ (dict_get n (items st) = None ->
      exists st', add_item today n c p st = (true, st')
      /\ items st' = items st ++ [(n, mkItem n c p 0 [] today)]
      /\ action_stack st' = ActDeleteItem n :: action_stack st
      /\ (forall c', In c' (categories st') <-> c' = c \/ In c' (categories st))).
Proof.
  unfold add_item. split.
  - intro H. destruct (dict_get n (items st)); [reflexivity | congruence].
  - intro H. rewrite H. eexists. split; [reflexivity |]. simpl.
    split; [apply dict_keys_set_absent, H |].
    split; [reflexivity |]. intro c'. apply In_set_add.
Qed.

Lemma add_item_spec_witness :
  add_item day0 "Milk" "Bread" (10 # 1) (state_after ops_milk10)
  = (false, state_after ops_milk10)
  /\ exists st', add_item day0 "Tea" "Drinks" (3 # 1) (state_after ops_milk10) = (true, st')
      /\ items st' = items (state_after ops_milk10) ++ [("Tea"%string, mkItem "Tea" "Drinks" (3 # 1) 0 [] day0)]
      /\ action_stack st' = ActDeleteItem "Tea" :: action_stack (state_after ops_milk10)
      /\ (forall c', In c' (categories st') <-> c' = "Drinks"%string \/ In c' (categories (state_after ops_milk10))).
Proof.
  split.
  - apply (add_item_spec day0 "Milk" "Bread" (10 # 1) (state_after ops_milk10)).
    vm_compute. discriminate.
  - apply (add_item_spec day0 "Tea" "Drinks" (3 # 1) (state_after ops_milk10)).
    vm_compute. reflexivity.
Defined.

(** *** C10 *)

Lemma insert_by_name_perm (kv : string * Item) (l : list (string * Item)) :
  Permutation (insert_by_name kv l) (kv :: l).
Proof.
  induction l as [| kv' l IH]; simpl; [reflexivity |].
  destruct (String.ltb (fst kv') (fst kv)); [| reflexivity].
  rewrite IH. apply perm_swap.
Qed.

Lemma sort_by_name_perm (l : list (string * Item)) : Permutation (sort_by_name l) l.
Proof.
  induction l as [| kv l IH]; simpl; [reflexivity |].
  rewrite insert_by_name_perm, IH. reflexivity.
Qed.

(** C10: [generate_report("")] is [generate_report(None)]: the empty filter
    is falsy, so every item gets a row, whatever its category. *)
Theorem report_empty_filter (st : Manager) :
  generate_report (Some ""%string) st = generate_report None st
  /\ forall k it, In (k, it) (items st) -> In (make_row k it) (generate_report (Some ""%string) st).
Proof.
  assert (Hall : forall f, filter_truthy f = false ->
                 generate_report f st = map (fun kv => make_row (fst kv) (snd kv)) (sort_by_name (items st))).
  { intros f Hf. unfold generate_report, skip_item. rewrite Hf. simpl.
    rewrite filter_all; [reflexivity |]. apply Forall_forall. reflexivity. }
  rewrite !Hall by reflexivity. split; [reflexivity |].
  intros k it Hin. apply (in_map (fun kv => make_row (fst kv) (snd kv)) _ (k, it)).
  apply (Permutation_in _ (Permutation_sym (sort_by_name_perm _)) Hin).
Qed.

(** *** C6 *)

Lemma Item_remove_expired_category (t : Date) (it : Item) :
  category (snd (Item_remove_expired t it)) = category it.
Proof.
  unfold Item_remove_expired.
  destruct (remove_expired_loop t (expiry_queue it) (quantity it) 0) as [[qn r] q].
  reflexivity.
Qed.

(** Replacing a live item by one of the same category, seen from a key. *)
Lemma dict_set_same_category (n k : string) (old v : Item) (d : list (string * Item)) :
  dict_get n d = Some old -> category v = category old ->
  (forall it, dict_get k (dict_set n v d) = Some it ->
     exists it0, dict_get k d = Some it0 /\ category it0 = category it)
  /\ (forall it0, dict_get k d = Some it0 ->
     exists it, dict_get k (dict_set n v d) = Some it /\ category it = category it0).
Proof.
  intros Hn Hc. rewrite dict_get_set.
  destruct (String.eqb_spec k n) as [-> | Hk]; split.
  - intros it H. injection H as <-. exists old. split; [exact Hn | symmetry; exact Hc].
  - intros it0 H. rewrite Hn in H. injection H as <-. exists v. split; [reflexivity | exact Hc].
  - intros it H. exists it. split; [exact H | reflexivity].
  - intros it0 H. exists it0. split; [exact H | reflexivity].
Qed.

(** Every category in the set is the category of a live item. *)
Lemma categories_live (st : Manager) :
  reachable st ->
  forall c, In c (categories st) -> exists k it, dict_get k (items st) = Some it /\ category it = c.
Proof.
  induction 1 as [| st o st' Hr IH Hal Hex]; [simpl; tauto |].
  destruct o as [t n c p | n qty s | t |]; simpl in Hex.
  - injection Hex as <-. unfold add_item.
    destruct (dict_get n (items st)) eqn:Hn; [exact IH |]. simpl.
    intros c' Hc'. apply In_set_add in Hc'. destruct Hc' as [-> | Hc'].
    + exists n, (new_Item t n c p). rewrite dict_get_set, String.eqb_refl.
      split; reflexivity.
    + destruct (IH c' Hc') as (k & it & Hk & Hc). exists k, it.
      rewrite dict_get_set. destruct (String.eqb_spec k n) as [-> | _]; [congruence |].
      split; assumption.
  - injection Hex as <-. unfold update_quantity.
    destruct (dict_get n (items st)) as [old |] eqn:Hn; [| exact IH].
    destruct (strptime_date s) as [e |]; [| exact IH]. simpl.
    intros c' Hc'. destruct (IH c' Hc') as (k & it0 & Hk & Hc).
    destruct (dict_set_same_category n k old (add_stock old qty e) _ Hn eq_refl) as [_ H].
    destruct (H it0 Hk) as (it & Hit & Hcat). exists k, it. split; [exact Hit | congruence].
  - injection Hex as <-. unfold remove_expired. rewrite remove_expired_items_eq. simpl.
    intros c' Hc'. destruct (IH c' Hc') as (k & it0 & Hk & Hc).
    exists k, (snd (Item_remove_expired t it0)).
    rewrite (dict_get_map (fun it => snd (Item_remove_expired t it))), Hk, Item_remove_expired_category. split; [reflexivity | exact Hc].
  - unfold undo_last_action in Hex.
    destruct (action_stack st) as [| [n | n delta] rest] eqn:Hst.
    + simpl in Hex. injection Hex as <-. exact IH.
    + destruct (dict_get n (items st)) as [old |] eqn:Hn; [| discriminate].
      simpl in Hex. injection Hex as <-. simpl. intros c' Hc'.
      unfold set_discard in Hc'. apply filter_In in Hc'. destruct Hc' as [Hc' Hne].
      destruct (IH c' Hc') as (k & it & Hk & Hc). exists k, it.
      rewrite dict_get_del. destruct (String.eqb_spec k n) as [-> | _]; [| split; assumption].
      rewrite Hn in Hk. injection Hk as <-. subst c'. rewrite String.eqb_refl in Hne.
      discriminate.
    + destruct (dict_get n (items st)) as [old |] eqn:Hn; [| discriminate].
      simpl in Hex. injection Hex as <-. simpl. intros c' Hc'.
      destruct (IH c' Hc') as (k & it0 & Hk & Hc).
      destruct (dict_set_same_category n k old
                  (mkItem (name old) (category old) (price old) (quantity old + delta)
                          (expiry_queue old) (date_added old)) _ Hn eq_refl) as [_ H].
      destruct (H it0 Hk) as (it & Hit & Hcat). exists k, it. split; [exact Hit | congruence].
Qed.

(** Without undos of [delete_item] records, every live item's category is in
    the set. *)
Lemma categories_complete (st : Manager) :
  reachable_by no_create_undo st ->
  forall k it, dict_get k (items st) = Some it -> In (category it) (categories st).
Proof.
  induction 1 as [| st o st' Hr IH Hal Hex]; [simpl; discriminate |].
  destruct o as [t n c p | n qty s | t |]; simpl in Hex.
  - injection Hex as <-. unfold add_item.
    destruct (dict_get n (items st)) eqn:Hn; [exact IH |]. simpl.
    intros k it Hk. apply In_set_add. rewrite dict_get_set in Hk.
    destruct (String.eqb k n).
    + injection Hk as <-. left. reflexivity.
    + right. apply (IH k it Hk).
  - injection Hex as <-. unfold update_quantity.
    destruct (dict_get n (items st)) as [old |] eqn:Hn; [| exact IH].
    destruct (strptime_date s) as [e |]; [| exact IH]. simpl.
    intros k it Hk.
    destruct (dict_set_same_category n k old (add_stock old qty e) _ Hn eq_refl) as [H _].
    destruct (H it Hk) as (it0 & Hit0 & Hcat). rewrite <- Hcat. apply (IH k it0 Hit0).
  - injection Hex as <-. unfold remove_expired. rewrite remove_expired_items_eq. simpl.
    intros k it Hk. rewrite (dict_get_map (fun it => snd (Item_remove_expired t it))) in Hk.
    destruct (dict_get k (items st)) as [it0 |] eqn:Hk0; [| discriminate].
    injection Hk as <-. rewrite Item_remove_expired_category. apply (IH k it0 Hk0).
  - unfold undo_last_action in Hex. unfold no_create_undo in Hal.
    destruct (action_stack st) as [| [n | n delta] rest] eqn:Hst.
    + simpl in Hex. injection Hex as <-. exact IH.
    + discriminate.
    + destruct (dict_get n (items st)) as [old |] eqn:Hn; [| discriminate].
      simpl in Hex. injection Hex as <-. simpl. intros k it Hk.
      destruct (dict_set_same_category n k old
                  (mkItem (name old) (category old) (price old) (quantity old + delta)
                          (expiry_queue old) (date_added old)) _ Hn eq_refl) as [H _].
      destruct (H it Hk) as (it0 & Hit0 & Hcat). rewrite <- Hcat. apply (IH k it0 Hit0).
Qed.

Lemma reachable_by_any (allowed : Manager -> op -> bool) (st : Manager) :
  reachable_by allowed st -> reachable st.
Proof.
  induction 1 as [| st o st' _ IH _ Hex]; [constructor |].
  apply (rb_step _ st o st' IH eq_refl Hex).
Qed.

(** C6 (amended): in every reachable state each category in the set is the
    category of some live item; in every state reached without undoing a
    [delete_item] record (an item creation) the set is exactly the set of
    the live items' categories.  An undo of a creation discards the item's
    category even when another live item has it. *)
Theorem categories_index :
  (forall st, reachable st ->
   forall c, In c (categories st) -> exists k it, dict_get k (items st) = Some it /\ category it = c)
  /\ (forall st, reachable_by no_create_undo st ->
      forall c, In c (categories st) <-> exists k it, dict_get k (items st) = Some it /\ category it = c).
Proof.
  split; [exact categories_live |].
  intros st Hr c. split.
  - apply categories_live, (reachable_by_any no_create_undo), Hr.
  - intros (k & it & Hk & <-). apply (categories_complete st Hr k it Hk).
Qed.

Lemma categories_index_witness :
  (In "Dairy"%string (categories (state_after ops_milk10)) ->
   exists k it, dict_get k (items (state_after ops_milk10)) = Some it /\ category it = "Dairy"%string)
  /\ (In "Dairy"%string (categories (state_after ops_milk10))
      <-> exists k it, dict_get k (items (state_after ops_milk10)) = Some it
                      /\ category it = "Dairy"%string).
Proof.
  assert (Hr : reachable_by no_create_undo (state_after ops_milk10)).
  { apply (run_reachable_by no_create_undo ops_milk10 empty_manager); [constructor | |].
    - repeat constructor.
    - vm_compute. reflexivity. }
  split.
  - apply (proj1 categories_index), (reachable_by_any no_create_undo), Hr.
  - apply (proj2 categories_index), Hr.
Defined.

(** C6 (counterexample): after creating ["A"] and ["B"], both of category
    ["Dairy"], and undoing the creation of ["B"], the live item ["A"] has
    category ["Dairy"] but the category set is empty. *)
Lemma undo_create_drops_shared_category :
  reachable (state_after ops_shared_category)
  /\ (exists it, dict_get "A" (items (state_after ops_shared_category)) = Some it
               /\ category it = "Dairy"%string)
  /\ categories (state_after ops_shared_category) = [].
Proof.
  destruct (state_after_reachable ops_shared_category (state_after ops_shared_category))
    as [Hr _]; [vm_compute; reflexivity |].
  split; [exact Hr | split; [| vm_compute; reflexivity]].
  eexists. split; vm_compute; reflexivity.
Qed.

(** *** C7 *)

(** [str(date)] read back by [strptime]. *)

Lemma dig_char (k : Z) (rest : string) :
  0 <= k < 10 -> dig 0 9 (String (digit_char k) rest) = Some (k, rest).
Proof.
  intro Hk.
  assert (k = 0 \/ k = 1 \/ k = 2 \/ k = 3 \/ k = 4 \/ k = 5 \/ k = 6 \/ k = 7
          \/ k = 8 \/ k = 9) as Hc by lia.
  repeat destruct Hc as [-> | Hc]; try reflexivity. subst. reflexivity.
Qed.

Lemma match_Y_str (y : Z) (rest : string) :
  0 <= y <= 9999 ->
  match_Y (String (digit_char (y / 1000 mod 10)) (String (digit_char (y / 100 mod 10))
           (String (digit_char (y / 10 mod 10)) (String (digit_char (y mod 10)) rest))))
  = Some (y, rest).
Proof.
  intro Hy. unfold match_Y.
  repeat (rewrite dig_char by (apply Z.mod_pos_bound; lia); cbn [obind]).
  f_equal. f_equal. Z.div_mod_to_equations. lia.
Qed.

Lemma match_m_str (m : Z) (rest : string) :
  1 <= m <= 12 ->
  match_m (String (digit_char (m / 10 mod 10)) (String (digit_char (m mod 10)) rest))
  = Some (m, rest).
Proof.
  intro Hm.
  assert (m = 1 \/ m = 2 \/ m = 3 \/ m = 4 \/ m = 5 \/ m = 6 \/ m = 7 \/ m = 8 \/ m = 9 \/ m = 10 \/ m = 11 \/ m = 12) as Hc by lia.
  repeat destruct Hc as [-> | Hc]; try reflexivity. subst. reflexivity.
Qed.

Lemma match_d_str (dd : Z) (rest : string) :
  1 <= dd <= 31 ->
  match_d (String (digit_char (dd / 10 mod 10)) (String (digit_char (dd mod 10)) rest))
  = Some (dd, rest).
Proof.
  intro Hd.
  assert (dd = 1 \/ dd = 2 \/ dd = 3 \/ dd = 4 \/ dd = 5 \/ dd = 6 \/ dd = 7 \/ dd = 8 \/ dd = 9 \/ dd = 10 \/ dd = 11 \/ dd = 12 \/ dd = 13 \/ dd = 14 \/ dd = 15 \/ dd = 16 \/ dd = 17 \/ dd = 18 \/ dd = 19 \/ dd = 20 \/ dd = 21 \/ dd = 22 \/ dd = 23 \/ dd = 24 \/ dd = 25 \/ dd = 26 \/ dd = 27 \/ dd = 28 \/ dd = 29 \/ dd = 30 \/ dd = 31) as Hc by lia.
  repeat destruct Hc as [-> | Hc]; try reflexivity. subst. reflexivity.
Qed.

Lemma days_in_month_le (y m : Z) : days_in_month y m <= 31.
Proof.
  unfold days_in_month.
  destruct m as [| p | p]; try lia.
  repeat (destruct p as [p | p |]; try lia); destruct (is_leap y); lia.
Qed.

(** [strptime(str(d), "%Y-%m-%d").date() == d] for every valid date. *)
Lemma strptime_date_str (d : Date) :
  date_valid d = true -> strptime_date (date_str d) = Some d.
Proof.
  intro Hv. pose proof Hv as Hv'. destruct d as [y m dd]. unfold date_valid in Hv'. cbn [year month day] in Hv'.
  repeat rewrite andb_true_iff in Hv'. rewrite !Z.leb_le in Hv'.
  pose proof (days_in_month_le y m).
  unfold strptime_date, date_str. cbn [year month day].
  rewrite match_Y_str by lia. cbn [obind lit]. rewrite Ascii.eqb_refl. cbn [obind].
  rewrite match_m_str by lia. cbn [obind lit]. rewrite Ascii.eqb_refl. cbn [obind].
  rewrite match_d_str by lia. cbn [obind]. rewrite Hv. reflexivity.
Qed.

Lemma parse_all_str (q : list Batch) :
  Forall (fun b => date_valid (fst b) = true) q ->
  parse_all (map (fun b => date_str (fst b)) q) = Some (map fst q).
Proof.
  induction 1 as [| b q Hb _ IH]; [reflexivity |]. cbn [map parse_all].
  rewrite strptime_date_str by exact Hb. cbn [obind]. rewrite IH. reflexivity.
Qed.

Lemma dict_get_app (k : string) (l1 l2 : list (string * Item)) :
  dict_get k (l1 ++ l2) = match dict_get k l1 with Some v => Some v | None => dict_get k l2 end.
Proof.
  induction l1 as [| [k' v'] l1 IH]; simpl; [reflexivity |].
  destruct (String.eqb k k'); [reflexivity | exact IH].
Qed.

Lemma dict_set_last (k : string) (v v' : Item) (pre : list (string * Item)) :
  dict_get k pre = None -> dict_set k v' (pre ++ [(k, v)]) = pre ++ [(k, v')].
Proof.
  induction pre as [| [k0 v0] pre IH]; simpl; intro H.
  - rewrite String.eqb_refl. reflexivity.
  - destruct (String.eqb_spec k k0); [discriminate |]. rewrite IH by exact H. reflexivity.
Qed.

Lemma Sorted_unit_batches (q : list Batch) :
  Sorted batch_le q -> Sorted batch_le (map (fun b => (fst b, 1)) q).
Proof.
  induction 1 as [| b q Hq IH Hh]; simpl; constructor; [exact IH |].
  destruct Hh; simpl; constructor. exact H.
Qed.

(** The replay of one item's dates, each date later than the ledger's. *)
Lemma replay_dates_items (k : string) (ds : list Date) :
  forall (pre : list (string * Item)) (it : Item) (st : Manager),
  items st = pre ++ [(k, it)] -> dict_get k pre = None ->
  Forall (fun d => date_valid d = true) ds ->
  Sorted batch_le (expiry_queue it ++ map (fun d => (d, 1)) ds) ->
  items (replay_dates k ds st)
  = pre ++ [(k, mkItem (name it) (category it) (price it)
                       (quantity it + Z.of_nat (List.length ds))
                       (expiry_queue it ++ map (fun d => (d, 1)) ds) (date_added it))].
Proof.
  induction ds as [| d ds IH]; intros pre it st Hst Hpre Hv Hs; cbn [replay_dates].
  - rewrite Hst, app_nil_r, Z.add_0_r. destruct it; reflexivity.
  - inversion Hv as [| ? ? Hd Hds]; subst.
    assert (Hu : snd (update_quantity k 1 (date_str d) st)
                 = mkManager (pre ++ [(k, add_stock it 1 d)])
                             (ActUpdateQuantity k (-1) :: action_stack st) (categories st)).
    { unfold update_quantity. rewrite Hst, dict_get_app, Hpre. cbn [dict_get].
      rewrite String.eqb_refl, (strptime_date_str d Hd). cbn [snd].
      rewrite dict_set_last by exact Hpre. reflexivity. }
    assert (Hsort : sort_by_expiry (expiry_queue it ++ [(d, 1)]) = expiry_queue it ++ [(d, 1)]).
    { apply sort_by_expiry_id. apply (Sorted_app_l _ _ (map (fun d => (d, 1)) ds)).
      rewrite <- app_assoc. exact Hs. }
    rewrite Hu.
    rewrite (IH pre (add_stock it 1 d)); [| reflexivity | exact Hpre | exact Hds | ].
    + unfold add_stock. cbn [name category price quantity expiry_queue date_added].
      rewrite Hsort, <- app_assoc. cbn [app map List.length].
      replace (quantity it + 1 + Z.of_nat (List.length ds))
        with (quantity it + Z.of_nat (S (List.length ds))) by lia.
      reflexivity.
    + unfold add_stock. cbn [expiry_queue]. rewrite Hsort, <- app_assoc. exact Hs.
Qed.

(** [import_from_json] of an exported dict into a state that has none of
    its names. *)
Lemma import_entries_items (today : Date) (d : list (string * Item)) :
  forall acc : Manager,
  NoDup (map fst d) ->
  (forall k, In k (map fst d) -> dict_get k (items acc) = None) ->
  Forall (fun kv => Sorted batch_le (expiry_queue (snd kv))
                    /\ Forall (fun b => date_valid (fst b) = true) (expiry_queue (snd kv))) d ->
  fst (import_entries today (map (fun kv => (fst kv, to_dict (snd kv))) d) acc) = true
  /\ items (snd (import_entries today (map (fun kv => (fst kv, to_dict (snd kv))) d) acc))
     = items acc ++ map (fun kv => (fst kv, reimported today (fst kv) (snd kv))) d.
Proof.
  induction d as [| [k it] d IH]; intros acc Hnd Hfresh Hinv; cbn [map import_entries].
  - rewrite app_nil_r. split; reflexivity.
  - inversion Hnd as [| ? ? Hk Hnd']; subst.
    inversion Hinv as [| ? ? [Hs Hv] Hinv']; subst. cbn [fst snd map] in *.
    assert (Hk0 : dict_get k (items acc) = None) by (apply Hfresh; left; reflexivity).
    set (st1 := snd (add_item today k (s_category (to_dict it)) (s_price (to_dict it)) acc)).
    assert (Hst1 : items st1 = items acc ++ [(k, new_Item today k (category it) (price it))]).
    { unfold st1, add_item. rewrite Hk0. cbn [snd items s_category s_price to_dict].
      apply dict_keys_set_absent, Hk0. }
    cbn [s_expiry_dates to_dict]. rewrite (parse_all_str _ Hv).
    assert (Hr : items (replay_dates k (map fst (expiry_queue it)) st1)
                 = items acc ++ [(k, reimported today k it)]).
    { rewrite (replay_dates_items k _ (items acc) (new_Item today k (category it) (price it))
                 st1 Hst1 Hk0).
      - unfold reimported, new_Item. cbn [name category price quantity expiry_queue date_added app].
        rewrite map_map, length_map. reflexivity.
      - apply Forall_map. exact Hv.
      - cbn [expiry_queue new_Item app]. rewrite map_map. apply Sorted_unit_batches, Hs. }
    destruct (IH (replay_dates k (map fst (expiry_queue it)) st1) Hnd') as [H1 H2].
    + intros k' Hk'. rewrite Hr, dict_get_app, Hfresh by (right; exact Hk').
      cbn [dict_get]. destruct (String.eqb_spec k' k) as [-> | _]; [contradiction | reflexivity].
    + exact Hinv'.
    + split; [exact H1 |]. rewrite H2, Hr, <- app_assoc. reflexivity.
Qed.

Lemma NoDup_keys_filter (p : string * Item -> bool) (d : list (string * Item)) :
  NoDup (map fst d) -> NoDup (map fst (filter p d)).
Proof.
  induction d as [| kv d IH]; cbn [filter map]; intro H; [constructor |].
  inversion H as [| ? ? Hn Hd]; subst.
  destruct (p kv); cbn [map]; [| apply IH, Hd].
  constructor; [| apply IH, Hd].
  intro Hin. apply Hn. apply in_map_iff in Hin. destruct Hin as (kv' & <- & Hin).
  apply filter_In in Hin. apply in_map, Hin.
Qed.

(** The dict never holds a name twice. *)
Lemma keys_nodup (allowed : Manager -> op -> bool) (st : Manager) :
  reachable_by allowed st -> NoDup (map fst (items st)).
Proof.
  induction 1 as [| st o st' Hr IH Hal Hex]; [constructor |].
  destruct o as [t n c p | n qty s | t |]; simpl in Hex.
  - injection Hex as <-. unfold add_item.
    destruct (dict_get n (items st)) eqn:Hn; [exact IH |]. cbn [snd items].
    rewrite dict_keys_set_absent, map_app by exact Hn. cbn [map fst].
    apply (Permutation_NoDup (Permutation_cons_append _ _)). constructor; [| exact IH].
    apply dict_get_None_iff, Hn.
  - injection Hex as <-. unfold update_quantity.
    destruct (dict_get n (items st)) as [it |] eqn:Hn; [| exact IH].
    destruct (strptime_date s); [| exact IH]. cbn [snd items].
    rewrite dict_keys_set_present by congruence. exact IH.
  - injection Hex as <-. unfold remove_expired. rewrite remove_expired_items_eq.
    cbn [snd items]. rewrite map_map. exact IH.
  - unfold undo_last_action in Hex.
    destruct (action_stack st) as [| [n | n delta] rest] eqn:Hst.
    + injection Hex as <-. exact IH.
    + destruct (dict_get n (items st)) as [it |] eqn:Hn; [| discriminate].
      injection Hex as <-. apply NoDup_keys_filter, IH.
    + destruct (dict_get n (items st)) as [it |] eqn:Hn; [| discriminate].
      injection Hex as <-. cbn [items].
      rewrite dict_keys_set_present by congruence. exact IH.
Qed.

Lemma dict_get_map_key (f : string -> Item -> Item) (k : string) (d : list (string * Item)) :
  dict_get k (map (fun kv => (fst kv, f (fst kv) (snd kv))) d) = option_map (f k) (dict_get k d).
Proof.
  induction d as [| [k' v] d IH]; cbn [map dict_get fst snd]; [reflexivity |].
  destruct (String.eqb_spec k k') as [-> | _]; [reflexivity | exact IH].
Qed.

(** C7 (amended): exporting a reachable state and importing the snapshot
    into a fresh manager succeeds and rebuilds every item, in the same
    order, with the same category and price and the same list (hence the
    same set) of expiry dates, each as a batch of 1 unit: the imported
    quantity is the number of the original item's batches, not its
    quantity. *)
Theorem export_import_roundtrip (st : Manager) (today : Date) :
  reachable st ->
  exists st', import_from_json today (export_to_json st) empty_manager = (true, st')
  /\ items st' = map (fun kv => (fst kv, reimported today (fst kv) (snd kv))) (items st)
  /\ forall k it, dict_get k (items st) = Some it ->
     exists it', dict_get k (items st') = Some it'
     /\ quantity it' = Z.of_nat (List.length (expiry_queue it))
     /\ map fst (expiry_queue it') = map fst (expiry_queue it)
     /\ category it' = category it /\ price it' = price it.
Proof.
  intro Hr.
  destruct (import_entries_items today (items st) empty_manager (keys_nodup any_op st Hr))
    as [H1 H2].
  - intros k _. reflexivity.
  - pose proof (ledgers_sorted any_op st Hr) as Hs. pose proof (ledgers_valid any_op st Hr) as Hv.
    rewrite Forall_forall in *. intros kv Hin. split; [apply Hs | apply Hv]; exact Hin.
  - exists (snd (import_from_json today (export_to_json st) empty_manager)).
    unfold import_from_json, export_to_json. split.
    + rewrite <- H1. destruct (import_entries _ _ _); reflexivity.
    + rewrite H2. change (items empty_manager) with (@nil (string * Item)). cbn [app].
      split; [reflexivity |].
      intros k it Hk. rewrite (dict_get_map_key (reimported today)), Hk.
      eexists. split; [reflexivity |]. unfold reimported.
      cbn [quantity expiry_queue category price]. rewrite map_map.
      split; [reflexivity | split; [| split; reflexivity]]. apply map_ext. reflexivity.
Qed.

Lemma export_import_roundtrip_witness :
  exists st', import_from_json day0 (export_to_json (state_after ops_milk10)) empty_manager
              = (true, st')
  /\ items st' = map (fun kv => (fst kv, reimported day0 (fst kv) (snd kv)))
                     (items (state_after ops_milk10))
  /\ forall k it, dict_get k (items (state_after ops_milk10)) = Some it ->
     exists it', dict_get k (items st') = Some it'
     /\ quantity it' = Z.of_nat (List.length (expiry_queue it))
     /\ map fst (expiry_queue it') = map fst (expiry_queue it)
     /\ category it' = category it /\ price it' = price it.
Proof.
  apply export_import_roundtrip.
  apply (state_after_reachable ops_milk10 (state_after ops_milk10)).
  vm_compute. reflexivity.
Defined.

(** C7 (counterexample): an item stocked with one batch of 10 units comes
    back from export and import with quantity 1. *)
Lemma roundtrip_loses_batch_quantity :
  reachable (state_after ops_milk10)
  /\ option_map quantity (dict_get "Milk" (items (state_after ops_milk10))) = Some 10
  /\ option_map quantity
       (dict_get "Milk" (items (snd (import_from_json day0
                                       (export_to_json (state_after ops_milk10))
                                       empty_manager)))) = Some 1.
Proof.
  destruct (state_after_reachable ops_milk10 (state_after ops_milk10)) as [Hr _];
    [vm_compute; reflexivity |].
  split; [exact Hr | split; vm_compute; reflexivity].
Qed.

Lemma report_empty_filter_witness :
  generate_report (Some ""%string) (state_after ops_two_expired)
  = generate_report None (state_after ops_two_expired)
  /\ In (make_row "b" (first_item (state_after ops_two_expired)))
        (generate_report (Some ""%string) (state_after ops_two_expired)).
Proof.
  destruct (report_empty_filter (state_after ops_two_expired)) as [H1 H2].
  split; [exact H1 |]. apply H2. vm_compute. left. reflexivity.
Defined.

(** ** Further properties of the code *)

(** *** [undo_last_action] never raises *)

Lemma stack_ok_transfer (d d' : list (string * Item)) (s : list action) :
  (forall a, In a s -> dict_get (action_name a) d <> None -> dict_get (action_name a) d' <> None) ->
  stack_ok d s -> stack_ok d' s.
Proof.
  induction s as [| a s IH]; cbn [stack_ok]; intros Hm Hs; [exact I |].
  destruct Hs as (H1 & H2 & H3). split; [apply Hm; [left; reflexivity | exact H1] |].
  split; [exact H2 |]. apply IH; [| exact H3]. intros a' Ha'. apply Hm. right. exact Ha'.
Qed.

Lemma stack_ok_live (d : list (string * Item)) (s : list action) :
  stack_ok d s -> Forall (fun a => dict_get (action_name a) d <> None) s.
Proof.
  induction s as [| a s IH]; cbn [stack_ok]; intro Hs; constructor; [apply Hs | apply IH, Hs].
Qed.

Lemma dict_set_live (n k : string) (v : Item) (d : list (string * Item)) :
  dict_get k d <> None -> dict_get k (dict_set n v d) <> None.
Proof. rewrite dict_get_set. destruct (String.eqb k n); congruence. Qed.

Lemma stack_ok_reachable (st : Manager) :
  reachable st -> stack_ok (items st) (action_stack st).
Proof.
  induction 1 as [| st o st' Hr IH Hal Hex]; [exact I |].
  destruct o as [t n c p | n qty s | t |]; simpl in Hex.
  - injection Hex as <-. unfold add_item.
    destruct (dict_get n (items st)) eqn:Hn; [exact IH |]. cbn [snd items action_stack stack_ok action_name].
    split; [rewrite dict_get_set, String.eqb_refl; discriminate |].
    split.
    + apply stack_ok_live in IH. revert IH. apply Forall_impl. intros a Ha Heq.
      rewrite Heq in Ha. contradiction.
    + apply (stack_ok_transfer (items st)); [| exact IH]. intros a _. apply dict_set_live.
  - injection Hex as <-. unfold update_quantity.
    destruct (dict_get n (items st)) as [it |] eqn:Hn; [| exact IH].
    destruct (strptime_date s); [| exact IH]. cbn [snd items action_stack stack_ok action_name].
    split; [rewrite dict_get_set, String.eqb_refl; discriminate |]. split; [exact I |].
    apply (stack_ok_transfer (items st)); [| exact IH]. intros a _. apply dict_set_live.
  - injection Hex as <-. unfold remove_expired. rewrite remove_expired_items_eq.
    cbn [snd items action_stack].
    apply (stack_ok_transfer (items st)); [| exact IH]. intros a _.
    rewrite (dict_get_map (fun it => snd (Item_remove_expired t it))).
    destruct (dict_get (action_name a) (items st)); [discriminate | congruence].
  - unfold undo_last_action in Hex.
    destruct (action_stack st) as [| [n | n delta] rest] eqn:Hst.
    + injection Hex as <-. rewrite Hst. exact I.
    + destruct (dict_get n (items st)) as [it |] eqn:Hn; [| discriminate].
      injection Hex as <-. cbn [items action_stack]. cbn [stack_ok action_name] in IH.
      destruct IH as (_ & Hnot & Hrest).
      apply (stack_ok_transfer (items st)); [| exact Hrest]. intros a Ha Hl.
      rewrite Forall_forall in Hnot. specialize (Hnot a Ha).
      rewrite dict_get_del. destruct (String.eqb_spec (action_name a) n); [contradiction | exact Hl].
    + destruct (dict_get n (items st)) as [it |] eqn:Hn; [| discriminate].
      injection Hex as <-. cbn [items action_stack]. cbn [stack_ok] in IH.
      apply (stack_ok_transfer (items st)); [| apply IH]. intros a _. apply dict_set_live.
Qed.

(** [undo_last_action] never raises [KeyError] in a reachable state; on an
    empty stack it returns ["No actions to undo."] and changes nothing. *)
Theorem undo_never_raises (st : Manager) :
  reachable st ->
  (exists msg st', undo_last_action st = Some (msg, st'))
  /\ (action_stack st = [] -> undo_last_action st = Some (msg_nothing, st)).
Proof.
  intro Hr. pose proof (stack_ok_reachable st Hr) as Hok.
  unfold undo_last_action. split; [| intros ->; reflexivity].
  destruct (action_stack st) as [| [n | n delta] rest]; [eexists; eexists; reflexivity | |];
    cbn [stack_ok action_name] in Hok; destruct Hok as (Hl & _);
    destruct (dict_get n (items st)); [eexists; eexists; reflexivity | congruence
                                       | eexists; eexists; reflexivity | congruence].
Qed.

Lemma undo_never_raises_witness :
  (exists msg st', undo_last_action (state_after ops_undo_stock) = Some (msg, st'))
  /\ (action_stack (state_after ops_undo_stock) = [] ->
      undo_last_action (state_after ops_undo_stock)
      = Some (msg_nothing, state_after ops_undo_stock)).
Proof.
  apply undo_never_raises.
  apply (state_after_reachable ops_undo_stock (state_after ops_undo_stock)).
  vm_compute. reflexivity.
Defined.

(** *** [add_item] followed by [undo_last_action] *)

Lemma dict_del_absent (n : string) (d : list (string * Item)) :
  dict_get n d = None -> dict_del n d = d.
Proof.
  unfold dict_del. induction d as [| [k v] d IH]; cbn [dict_get filter fst]; intro H; [reflexivity |].
  destruct (String.eqb n k); [discriminate |]. cbn [negb]. rewrite IH by exact H. reflexivity.
Qed.

Lemma set_discard_add (c : string) (s : list string) :
  set_discard c (set_add c s) = set_discard c s.
Proof.
  unfold set_add. destruct (existsb (String.eqb c) s); [reflexivity |].
  unfold set_discard. rewrite filter_app. cbn [filter]. rewrite String.eqb_refl, app_nil_r.
  reflexivity.
Qed.

(** Undoing a successful [add_item] restores the dict and the undo stack
    exactly, but drops the item's category from [self.categories] even when
    the category was already there before the call. *)
Theorem add_item_then_undo (today : Date) (n c : string) (p : Q) (st : Manager) :
  dict_get n (items st) = None ->
  fst (add_item today n c p st) = true
  /\ undo_last_action (snd (add_item today n c p st))
     = Some (("Undid: Deleted item '" ++ n ++ "'")%string,
             mkManager (items st) (action_stack st) (set_discard c (categories st))).
Proof.
  intro Hn. unfold add_item. rewrite Hn. split; [reflexivity |].
  unfold undo_last_action. cbn [snd items action_stack categories].
  rewrite dict_get_set, String.eqb_refl. cbn [new_Item category].
  rewrite dict_keys_set_absent by exact Hn.
  rewrite set_discard_add. f_equal. f_equal. f_equal.
  unfold dict_del. rewrite filter_app. cbn [filter fst]. rewrite String.eqb_refl. cbn [negb].
  rewrite app_nil_r. apply dict_del_absent, Hn.
Qed.

Lemma add_item_then_undo_witness :
  dict_get "Tea" (items (state_after ops_shared_category)) = None
  /\ fst (add_item day0 "Tea" "Dairy" 3 (state_after ops_shared_category)) = true
  /\ undo_last_action (snd (add_item day0 "Tea" "Dairy" 3 (state_after ops_shared_category)))
     = Some (("Undid: Deleted item '" ++ "Tea" ++ "'")%string,
             mkManager (items (state_after ops_shared_category))
                       (action_stack (state_after ops_shared_category))
                       (set_discard "Dairy" (categories (state_after ops_shared_category)))).
Proof.
  assert (H : dict_get "Tea" (items (state_after ops_shared_category)) = None)
    by (vm_compute; reflexivity).
  split; [exact H |]. apply add_item_then_undo, H.
Defined.

(** *** [update_quantity] followed by [undo_last_action] *)

Lemma dict_set_set (n : string) (v1 v2 : Item) (d : list (string * Item)) :
  dict_set n v2 (dict_set n v1 d) = dict_set n v2 d.
Proof.
  induction d as [| [k v] d IH]; cbn [dict_set].
  - rewrite String.eqb_refl. reflexivity.
  - destruct (String.eqb n k) eqn:E; cbn [dict_set]; rewrite E; [reflexivity |].
    rewrite IH. reflexivity.
Qed.

(** Undoing a successful [update_quantity] restores the quantity, the undo
    stack and the categories, but the batch that [add_stock] queued stays in
    the ledger. *)
Theorem update_quantity_then_undo (n : string) (qty : Z) (s : string) (e : Date)
    (it : Item) (st : Manager) :
  dict_get n (items st) = Some it -> strptime_date s = Some e ->
  fst (update_quantity n qty s st) = true
  /\ undo_last_action (snd (update_quantity n qty s st))
     = Some (("Undid: Quantity adjustment for '" ++ n ++ "'")%string,
             mkManager (dict_set n (mkItem (name it) (category it) (price it) (quantity it)
                                           (sort_by_expiry (expiry_queue it ++ [(e, qty)]))
                                           (date_added it)) (items st))
                       (action_stack st) (categories st)).
Proof.
  intros Hn He. unfold update_quantity. rewrite Hn, He. split; [reflexivity |].
  unfold undo_last_action. cbn [snd items action_stack categories].
  rewrite dict_get_set, String.eqb_refl, dict_set_set.
  unfold add_stock. cbn [name category price quantity expiry_queue date_added].
  replace (quantity it + qty + - qty) with (quantity it) by lia. reflexivity.
Qed.

Lemma update_quantity_then_undo_witness :
  let st := state_after ops_milk10 in
  let it := first_item st in
  dict_get "Milk" (items st) = Some it /\ strptime_date "2099-02-01" = Some (mkDate 2099 2 1)
  /\ fst (update_quantity "Milk" 5 "2099-02-01" st) = true
  /\ undo_last_action (snd (update_quantity "Milk" 5 "2099-02-01" st))
     = Some (("Undid: Quantity adjustment for '" ++ "Milk" ++ "'")%string,
             mkManager (dict_set "Milk" (mkItem (name it) (category it) (price it) (quantity it)
                                   (sort_by_expiry (expiry_queue it ++ [(mkDate 2099 2 1, 5)]))
                                   (date_added it)) (items st))
                       (action_stack st) (categories st)).
Proof.
  intros st it.
  assert (H1 : dict_get "Milk" (items st) = Some it) by (vm_compute; reflexivity).
  assert (H2 : strptime_date "2099-02-01" = Some (mkDate 2099 2 1)) by (vm_compute; reflexivity).
  split; [exact H1 | split; [exact H2 |]].
  apply (update_quantity_then_undo "Milk" 5 "2099-02-01" (mkDate 2099 2 1) it st H1 H2).
Defined.

(** *** [remove_expired] is idempotent *)

Lemma remove_expired_loop_head (today : Date) (q : list Batch) (qn r : Z) :
  let '(qn', r', q') := remove_expired_loop today q qn r in
  remove_expired_loop today q' qn' 0 = (qn', 0, q').
Proof.
  revert qn r. induction q as [| [e qty] q IH]; intros qn r; cbn [remove_expired_loop];
    [reflexivity |].
  destruct (date_ltb e today) eqn:He; [apply IH |].
  cbn [remove_expired_loop]. rewrite He. reflexivity.
Qed.

Lemma Item_remove_expired_again (today : Date) (it : Item) :
  Item_remove_expired today (snd (Item_remove_expired today it))
  = (0, snd (Item_remove_expired today it)).
Proof.
  unfold Item_remove_expired.
  pose proof (remove_expired_loop_head today (expiry_queue it) (quantity it) 0) as H.
  destruct (remove_expired_loop today (expiry_queue it) (quantity it) 0) as [[qn r] q].
  cbn [snd name category price quantity expiry_queue date_added]. rewrite H. reflexivity.
Qed.

(** A second [remove_expired] on the same day reports nothing and changes
    nothing. *)
Theorem remove_expired_idempotent (today : Date) (st : Manager) :
  remove_expired today (snd (remove_expired today st)) = ([], snd (remove_expired today st)).
Proof.
  unfold remove_expired. destruct st as [d s c]. cbn [items action_stack categories].
  enough (H : remove_expired_items today (snd (remove_expired_items today d))
              = ([], snd (remove_expired_items today d))).
  { destruct (remove_expired_items today d) as [m d'] eqn:E. cbn [snd] in *.
    cbn [items action_stack categories]. rewrite H. reflexivity. }
  induction d as [| [k it] d IH]; [reflexivity |]. cbn [remove_expired_items].
  pose proof (Item_remove_expired_again today it) as Hi.
  destruct (Item_remove_expired today it) as [r it'] eqn:E. cbn [snd] in Hi |- *.
  destruct (remove_expired_items today d) as [m d'] eqn:E2. cbn [snd] in IH |- *.
  cbn [remove_expired_items]. rewrite Hi, IH. reflexivity.
Qed.

(** *** [import_from_json] on a bad date *)

Lemma parse_all_None_iff (l : list string) :
  parse_all l = None <-> Exists (fun s => strptime_date s = None) l.
Proof.
  induction l as [| s l IH]; cbn [parse_all obind].
  - split; [discriminate | intro H; inversion H].
  - rewrite Exists_cons. destruct (strptime_date s); [| tauto].
    rewrite <- IH. destruct (parse_all l); cbn [obind]; split; intuition congruence.
Qed.

(** An entry with an unparsable expiry date stops the import: it returns
    [False], the entries before it stay imported, the bad entry's
    [add_item] call has already run (creating an item with no stock when
    the name was new, changing nothing when it was present), and the later
    entries are not imported. *)
Theorem import_stops_at_bad_date (today : Date) (data1 : list (string * Snapshot))
    (k : string) (e : Snapshot) (data2 : list (string * Snapshot)) (s : string) (st : Manager) :
  Forall (fun kv => Forall (fun s' => strptime_date s' <> None) (s_expiry_dates (snd kv))) data1 ->
  In s (s_expiry_dates e) -> strptime_date s = None ->
  import_from_json today (data1 ++ (k, e) :: data2) st
  = (false, snd (add_item today k (s_category e) (s_price e)
                          (snd (import_from_json today data1 st)))).
Proof.
  intros H1 Hin Hs. unfold import_from_json.
  assert (He : parse_all (s_expiry_dates e) = None).
  { apply parse_all_None_iff, Exists_exists. exists s. split; assumption. }
  revert st. induction H1 as [| [k' e'] data1 Hg _ IH]; intro st; cbn [app import_entries].
  - rewrite He. reflexivity.
  - destruct (parse_all (s_expiry_dates e')) as [ds |] eqn:E; [apply IH |].
    exfalso. apply parse_all_None_iff in E. cbn [snd] in Hg.
    rewrite Forall_forall in Hg. apply Exists_exists in E. destruct E as (s' & Hs' & Hn).
    exact (Hg s' Hs' Hn).
Qed.

Lemma import_stops_at_bad_date_witness :
  import_from_json day0 ([("Tea"%string, snap_ok)] ++ ("Jam"%string, snap_bad) :: [("Coffee"%string, snap_ok)]) empty_manager
  = (false, snd (add_item day0 "Jam" "Food" 3 (snd (import_from_json day0 [("Tea"%string, snap_ok)] empty_manager)))).
Proof.
  apply (import_stops_at_bad_date day0 _ "Jam" snap_bad _ "2024-13-01").
  - repeat constructor; vm_compute; discriminate.
  - vm_compute. right. left. reflexivity.
  - vm_compute. reflexivity.
Defined.

(** *** [import_from_json] into an existing name *)

Lemma parse_all_valid (l : list string) (ds : list Date) :
  parse_all l = Some ds -> Forall (fun d => date_valid d = true) ds.
Proof.
  revert ds. induction l as [| s l IH]; intros ds; cbn [parse_all obind].
  - intro H. injection H as <-. constructor.
  - destruct (strptime_date s) as [d |] eqn:Hs; [| discriminate].
    destruct (parse_all l) as [ds' |]; [| discriminate].
    intro H. injection H as <-. constructor; [apply (strptime_date_valid s), Hs | apply IH; reflexivity].
Qed.

Lemma replay_dates_existing (k : string) (ds : list Date) :
  forall (st : Manager) (it : Item),
  dict_get k (items st) = Some it -> Forall (fun d => date_valid d = true) ds ->
  items (replay_dates k ds st) = dict_set k (add_stock_calls it (map (fun d => (1, d)) ds)) (items st).
Proof.
  induction ds as [| d ds IH]; intros st it Hk Hv; cbn [replay_dates map].
  - unfold add_stock_calls. cbn [fold_left]. induction (items st) as [| [k' v] l IHl];
      cbn [dict_get] in Hk; [discriminate |]. cbn [dict_set].
    destruct (String.eqb_spec k k') as [-> | _]; [injection Hk as ->; reflexivity |].
    rewrite <- IHl by exact Hk. reflexivity.
  - inversion Hv as [| ? ? Hd Hds]; subst.
    unfold update_quantity. rewrite Hk, (strptime_date_str d Hd).
    rewrite (IH _ (add_stock it 1 d)); cbn [snd items].
    + rewrite dict_set_set. reflexivity.
    + rewrite dict_get_set, String.eqb_refl. reflexivity.
    + exact Hds.
Qed.

Lemma add_stock_calls_fields (adds : list (Z * Date)) (it : Item) :
  let it' := add_stock_calls it adds in
  name it' = name it /\ category it' = category it /\ price it' = price it
  /\ date_added it' = date_added it
  /\ quantity it' = quantity it + fold_right (fun a acc => fst a + acc) 0 adds.
Proof.
  unfold add_stock_calls. revert it. induction adds as [| a adds IH]; intro it; cbn [fold_left fold_right].
  - repeat split; lia.
  - destruct (IH (add_stock it (fst a) (snd a))) as (H1 & H2 & H3 & H4 & H5).
    rewrite H1, H2, H3, H4, H5. cbn [add_stock name category price date_added quantity].
    repeat split; lia.
Qed.

Lemma sum_unit_adds (ds : list Date) :
  fold_right (fun a acc => fst a + acc) 0 (map (fun d => (1, d)) ds) = Z.of_nat (List.length ds).
Proof. induction ds as [| d ds IH]; cbn [map fold_right fst List.length]; [reflexivity | rewrite IH; lia]. Qed.

(** Importing an entry whose name is already in the dict and whose expiry
    dates all parse succeeds, keeps
    the existing item's name, category, price and date, ignores the
    snapshot's category and price, and adds one unit batch per listed date:
    the quantity grows by the number of dates and the ledger stays sorted. *)
Theorem import_into_existing (today : Date) (k : string) (e : Snapshot) (ds : list Date)
    (it : Item) (st : Manager) :
  reachable st -> dict_get k (items st) = Some it -> parse_all (s_expiry_dates e) = Some ds ->
  let res := import_from_json today [(k, e)] st in
  fst res = true
  /\ map fst (items (snd res)) = map fst (items st)
  /\ exists it', dict_get k (items (snd res)) = Some it'
     /\ name it' = name it /\ category it' = category it /\ price it' = price it
     /\ date_added it' = date_added it
     /\ quantity it' = quantity it + Z.of_nat (List.length ds)
     /\ Permutation (expiry_queue it') (expiry_queue it ++ map (fun d => (d, 1)) ds)
     /\ Sorted batch_le (expiry_queue it').
Proof.
  intros Hr Hk He res. unfold res, import_from_json. cbn [import_entries].
  assert (Ha : snd (add_item today k (s_category e) (s_price e) st) = st)
    by (unfold add_item; rewrite Hk; reflexivity).
  rewrite He. cbn [import_entries fst snd]. rewrite Ha.
  pose proof (parse_all_valid _ _ He) as Hv.
  rewrite (replay_dates_existing k ds st it Hk Hv).
  split; [reflexivity |]. split; [apply dict_keys_set_present; congruence |].
  eexists. split; [rewrite dict_get_set, String.eqb_refl; reflexivity |].
  destruct (add_stock_calls_fields (map (fun d => (1, d)) ds) it) as (H1 & H2 & H3 & H4 & H5).
  rewrite sum_unit_adds in H5.
  assert (Hs : Sorted batch_le (expiry_queue it)).
  { pose proof (ledgers_sorted any_op st Hr) as Hl. apply (Forall_dict_get (fun it => Sorted batch_le (expiry_queue it)) k it _ Hl Hk). }
  destruct (add_stock_calls_spec (map (fun d => (1, d)) ds) it Hs) as (Hso & Hp & _).
  unfold batches_of_calls in Hp. rewrite map_map in Hp. cbn [fst snd] in Hp.
  repeat split; assumption.
Qed.

Lemma import_into_existing_witness :
  let st := state_after ops_milk10 in
  let res := import_from_json day0 [("Milk"%string, snap_ok)] st in
  fst res = true
  /\ map fst (items (snd res)) = map fst (items st)
  /\ exists it', dict_get "Milk" (items (snd res)) = Some it'
     /\ name it' = name (first_item st) /\ category it' = category (first_item st)
     /\ price it' = price (first_item st) /\ date_added it' = date_added (first_item st)
     /\ quantity it' = quantity (first_item st) + Z.of_nat (List.length [mkDate 2099 1 1])
     /\ Permutation (expiry_queue it')
                    (expiry_queue (first_item st) ++ map (fun d => (d, 1)) [mkDate 2099 1 1])
     /\ Sorted batch_le (expiry_queue it').
Proof.
  intros st res.
  apply (import_into_existing day0 "Milk" snap_ok [mkDate 2099 1 1] (first_item st) st).
  - apply (state_after_reachable ops_milk10 st). vm_compute. reflexivity.
  - vm_compute. reflexivity.
  - vm_compute. reflexivity.
Defined.

(** *** The order of the report *)

Lemma string_compare_OT (s t : string) :
  String.compare s t = OrdersEx.String_as_OT.compare s t.
Proof.
  revert t. induction s as [| a s IH]; intros [| b t]; reflexivity.
Qed.

Lemma string_ltb_lt (s t : string) :
  String.ltb s t = true <-> OrdersEx.String_as_OT.lt s t.
Proof.
  unfold String.ltb, OrdersEx.String_as_OT.lt. rewrite string_compare_OT.
  destruct (OrdersEx.String_as_OT.compare s t); split; congruence.
Qed.

Lemma string_ltb_trans (a b c : string) :
  String.ltb a b = true -> String.ltb b c = true -> String.ltb a c = true.
Proof.
  rewrite !string_ltb_lt. apply OrdersEx.String_as_OT.lt_strorder.
Qed.

Lemma string_ltb_total (a b : string) :
  String.ltb a b = false -> a = b \/ String.ltb b a = true.
Proof.
  unfold String.ltb. rewrite (string_compare_OT a b), (string_compare_OT b a).
  destruct (OrdersEx.String_as_OT.compare_spec a b) as [H | H | H]; intro Hab.
  - left. exact H.
  - discriminate.
  - right. unfold OrdersEx.String_as_OT.lt in H. rewrite H. reflexivity.
Qed.

Lemma string_ltb_asym (a b : string) : String.ltb a b = true -> String.ltb b a = false.
Proof.
  intro H. destruct (String.ltb b a) eqn:E; [| reflexivity].
  exfalso. rewrite string_ltb_lt in H, E.
  apply (StrictOrder_Irreflexive (R := OrdersEx.String_as_OT.lt) a).
  apply (StrictOrder_Transitive a b a H E).
Qed.

(** [kv1] is not after [kv2] by name. *)
Lemma name_le_trans (x y z : string * Item) :
  String.ltb (fst y) (fst x) = false -> String.ltb (fst z) (fst y) = false ->
  String.ltb (fst z) (fst x) = false.
Proof.
  intros Hxy Hyz. destruct (String.ltb (fst z) (fst x)) eqn:Hzx; [| reflexivity].
  destruct (string_ltb_total _ _ Hxy) as [Hq | Hl].
  - rewrite Hq in Hyz. congruence.
  - rewrite (string_ltb_trans _ _ _ Hzx Hl) in Hyz. discriminate.
Qed.

Lemma insert_by_name_sorted (kv : string * Item) (l : list (string * Item)) :
  Sorted (fun x y => String.ltb (fst y) (fst x) = false) l ->
  Sorted (fun x y => String.ltb (fst y) (fst x) = false) (insert_by_name kv l).
Proof.
  induction 1 as [| kv' l Hs IH Hh]; cbn [insert_by_name]; [repeat constructor |].
  destruct (String.ltb (fst kv') (fst kv)) eqn:E.
  - constructor; [exact IH |].
    destruct Hh as [| kv'' l' Hh']; cbn [insert_by_name].
    + constructor. apply string_ltb_asym, E.
    + destruct (String.ltb (fst kv'') (fst kv)); constructor; [exact Hh' | apply string_ltb_asym, E].
  - constructor; [constructor; [exact Hs | exact Hh] | constructor; exact E].
Qed.

Lemma sort_by_name_sorted (l : list (string * Item)) :
  StronglySorted (fun x y => String.ltb (fst y) (fst x) = false) (sort_by_name l).
Proof.
  apply Sorted_StronglySorted; [intros x y z; apply name_le_trans |].
  induction l as [| kv l IH]; cbn [sort_by_name]; [constructor | apply insert_by_name_sorted, IH].
Qed.

Lemma StronglySorted_filter {A} (R : A -> A -> Prop) (p : A -> bool) (l : list A) :
  StronglySorted R l -> StronglySorted R (filter p l).
Proof.
  induction 1 as [| a l _ IH Ha]; cbn [filter]; [constructor |].
  destruct (p a); [| exact IH]. constructor; [exact IH |].
  rewrite Forall_forall in *. intros x Hx. apply filter_In in Hx. apply Ha, Hx.
Qed.

Lemma StronglySorted_map {A B} (f : A -> B) (R : B -> B -> Prop) (l : list A) :
  StronglySorted (fun x y => R (f x) (f y)) l -> StronglySorted R (map f l).
Proof.
  induction 1 as [| a l _ IH Ha]; cbn [map]; constructor; [exact IH |].
  apply Forall_map, Ha.
Qed.

Lemma StronglySorted_names_strict (l : list (string * Item)) :
  StronglySorted (fun x y => String.ltb (fst y) (fst x) = false) l -> NoDup (map fst l) ->
  StronglySorted (fun x y => String.ltb (fst x) (fst y) = true) l.
Proof.
  induction 1 as [| a l _ IH Ha]; cbn [map]; intro Hnd; [constructor |].
  inversion Hnd as [| ? ? Hn Hnd']; subst. constructor; [apply IH, Hnd' |].
  rewrite Forall_forall in *. intros x Hx. specialize (Ha x Hx).
  destruct (string_ltb_total _ _ Ha) as [Hq | Hl]; [| exact Hl].
  exfalso. apply Hn. rewrite <- Hq. apply in_map, Hx.
Qed.

(** In a reachable state every report, whatever the filter, lists its rows
    in strictly increasing order of name. *)
Theorem report_names_increasing (st : Manager) (f : option string) :
  reachable st ->
  StronglySorted (fun r1 r2 => String.ltb (r_name r1) (r_name r2) = true) (generate_report f st).
Proof.
  intro Hr. unfold generate_report. apply StronglySorted_map.
  apply StronglySorted_names_strict.
  - apply StronglySorted_filter, sort_by_name_sorted.
  - apply NoDup_keys_filter.
    apply (Permutation_NoDup (Permutation_map fst (Permutation_sym (sort_by_name_perm _)))).
    apply (keys_nodup any_op st Hr).
Qed.

Lemma report_names_increasing_witness :
  StronglySorted (fun r1 r2 => String.ltb (r_name r1) (r_name r2) = true)
                 (generate_report None (state_after ops_two_expired)).
Proof.
  apply report_names_increasing.
  apply (state_after_reachable ops_two_expired (state_after ops_two_expired)).
  vm_compute. reflexivity.
Defined.

(** With a non-empty category filter [c] the report has exactly one row per
    item of category [c] and no other row. *)
Theorem report_category_rows (st : Manager) (c : string) (row : Row) :
  c <> ""%string ->
  In row (generate_report (Some c) st)
  <-> exists k it, In (k, it) (items st) /\ category it = c /\ row = make_row k it.
Proof.
  intro Hc. unfold generate_report. rewrite in_map_iff.
  assert (Hsk : forall it, negb (skip_item (Some c) it) = String.eqb (category it) c).
  { intro it. unfold skip_item, filter_truthy.
    destruct (String.eqb_spec c ""); [contradiction |].
    destruct (String.eqb (category it) c); reflexivity. }
  split.
  - intros ([k it] & <- & Hin). apply filter_In in Hin. destruct Hin as [Hin Hcat].
    cbn [snd fst] in *. rewrite Hsk in Hcat. apply String.eqb_eq in Hcat.
    exists k, it. split; [| split; [exact Hcat | reflexivity]].
    apply (Permutation_in _ (sort_by_name_perm _) Hin).
  - intros (k & it & Hin & Hcat & ->). exists (k, it). split; [reflexivity |].
    apply filter_In. split.
    + apply (Permutation_in _ (Permutation_sym (sort_by_name_perm _)) Hin).
    + cbn [snd]. rewrite Hsk, Hcat. apply String.eqb_refl.
Qed.

Lemma report_category_rows_witness :
  let st := state_after ops_milk10 in
  In (make_row "Milk" (first_item st)) (generate_report (Some "Dairy"%string) st)
  <-> exists k it, In (k, it) (items st) /\ category it = "Dairy"%string
                   /\ make_row "Milk" (first_item st) = make_row k it.
Proof.
  intro st. apply report_category_rows. discriminate.
Defined.

(** *** [get_item_details] *)

Lemma dict_get_In_NoDup (k : string) (v : Item) (d : list (string * Item)) :
  NoDup (map fst d) -> In (k, v) d -> dict_get k d = Some v.
Proof.
  induction d as [| [k' v'] d IH]; cbn [map fst In dict_get]; intros Hnd Hin; [contradiction |].
  inversion Hnd as [| ? ? Hn Hnd']; subst.
  destruct Hin as [Heq | Hin].
  - injection Heq as -> ->. rewrite String.eqb_refl. reflexivity.
  - destruct (String.eqb_spec k k') as [-> | _]; [| apply IH; assumption].
    exfalso. apply Hn. apply (in_map fst _ _ Hin).
Qed.

(** In a reachable state the rows of the unfiltered report and the detail
    dicts of [get_item_details] correspond one to one by name: each row
    has a detail dict for its name, each detail dict has a row, and the two
    agree on name, category and quantity; the row's expiry text is the
    detail's date list joined with [", "].  (The row's price and value are
    formatted strings in the source, the detail's are numbers; they are not
    compared here.) *)
Theorem report_rows_are_details (st : Manager) :
  reachable st ->
  (forall row, In row (generate_report None st) ->
     exists det, get_item_details (r_name row) st = Some det
       /\ d_name det = r_name row /\ d_category det = r_category row
       /\ d_quantity det = r_quantity row
       /\ String.concat ", " (d_expiry_dates det) = r_expiry_dates row)
  /\ (forall n det, get_item_details n st = Some det ->
     exists row, In row (generate_report None st)
       /\ r_name row = n /\ d_category det = r_category row
       /\ d_quantity det = r_quantity row
       /\ String.concat ", " (d_expiry_dates det) = r_expiry_dates row).
Proof.
  intro Hr. pose proof (keys_nodup any_op st Hr) as Hnd.
  unfold generate_report.
  assert (Hf : filter (fun kv => negb (skip_item None (snd kv))) (sort_by_name (items st))
               = sort_by_name (items st)) by (apply filter_all, Forall_forall; reflexivity).
  rewrite Hf. split.
  - intros row Hin. apply in_map_iff in Hin. destruct Hin as ([k it] & <- & Hin).
    apply (Permutation_in _ (sort_by_name_perm _)) in Hin.
    cbn [fst snd make_row r_name r_category r_quantity r_expiry_dates].
    unfold get_item_details. rewrite (dict_get_In_NoDup k it _ Hnd Hin).
    eexists. split; [reflexivity |]. repeat split.
  - intros n det Hd. unfold get_item_details in Hd.
    destruct (dict_get n (items st)) as [it |] eqn:Hg; [| discriminate].
    injection Hd as <-. exists (make_row n it). split; [| repeat split].
    apply in_map_iff. exists (n, it). split; [reflexivity |].
    apply (Permutation_in _ (Permutation_sym (sort_by_name_perm _))), dict_get_In, Hg.
Qed.

Lemma report_rows_are_details_witness :
  let st := state_after ops_milk10 in
  (forall row, In row (generate_report None st) ->
     exists det, get_item_details (r_name row) st = Some det
       /\ d_name det = r_name row /\ d_category det = r_category row
       /\ d_quantity det = r_quantity row
       /\ String.concat ", " (d_expiry_dates det) = r_expiry_dates row)
  /\ (forall n det, get_item_details n st = Some det ->
     exists row, In row (generate_report None st)
       /\ r_name row = n /\ d_category det = r_category row
       /\ d_quantity det = r_quantity row
       /\ String.concat ", " (d_expiry_dates det) = r_expiry_dates row).
Proof.
  intro st. apply report_rows_are_details.
  apply (state_after_reachable ops_milk10 st). vm_compute. reflexivity.
Defined.

(** *** Items are stored under their own name *)

Lemma Forall_name_set (n : string) (v : Item) (d : list (string * Item)) :
  Forall (fun kv => name (snd kv) = fst kv) d -> name v = n ->
  Forall (fun kv => name (snd kv) = fst kv) (dict_set n v d).
Proof.
  induction d as [| [k' v'] d IH]; cbn [dict_set]; intros Hd Hv.
  - constructor; [exact Hv | constructor].
  - apply Forall_cons_iff in Hd as [Hk Hd']. cbn [fst snd] in Hk.
    destruct (String.eqb_spec n k') as [E | _]; constructor; cbn [fst snd]; auto.
    congruence.
Qed.

(** In every reachable state each item of the dict carries the name it is
    stored under, so the names in [remove_expired]'s messages and in undo
    messages are dict keys. *)
Theorem item_names_are_keys (st : Manager) :
  reachable st -> Forall (fun kv => name (snd kv) = fst kv) (items st).
Proof.
  induction 1 as [| st o st' Hr IH Hal Hex]; [constructor |].
  destruct o as [t n c p | n qty s | t |]; cbn [exec_op] in Hex.
  - injection Hex as <-. unfold add_item.
    destruct (dict_get n (items st)); [exact IH |]. cbn [snd items].
    apply Forall_name_set; [exact IH | reflexivity].
  - injection Hex as <-. unfold update_quantity.
    destruct (dict_get n (items st)) as [it |] eqn:Hn; [| exact IH].
    destruct (strptime_date s); [| exact IH]. cbn [snd items].
    apply Forall_name_set; [exact IH |]. cbn [add_stock name].
    apply (dict_get_In n it) in Hn. rewrite Forall_forall in IH. apply (IH _ Hn).
  - injection Hex as <-. unfold remove_expired. rewrite remove_expired_items_eq.
    cbn [snd items]. apply Forall_map. revert IH. apply Forall_impl.
    intros [k it] Hk. cbn [fst snd] in *. unfold Item_remove_expired.
    destruct (remove_expired_loop t (expiry_queue it) (quantity it) 0) as [[qn r] q].
    exact Hk.
  - unfold undo_last_action in Hex.
    destruct (action_stack st) as [| [n | n delta] rest].
    + injection Hex as <-. exact IH.
    + destruct (dict_get n (items st)); [| discriminate].
      injection Hex as <-. cbn [items]. unfold dict_del. rewrite Forall_forall in *.
      intros kv Hkv. apply filter_In in Hkv. apply IH, Hkv.
    + destruct (dict_get n (items st)) as [it |] eqn:Hn; [| discriminate].
      injection Hex as <-. cbn [items]. apply Forall_name_set; [exact IH |]. cbn [name].
      apply (dict_get_In n it) in Hn. rewrite Forall_forall in IH. apply (IH _ Hn).
Qed.

Lemma item_names_are_keys_witness :
  Forall (fun kv => name (snd kv) = fst kv) (items (state_after ops_two_expired)).
Proof.
  apply item_names_are_keys.
  apply (state_after_reachable ops_two_expired (state_after ops_two_expired)).
  vm_compute. reflexivity.
Defined.
